(** * typescript-vfs: a virtual TypeScript environment over an in-memory file map

    Shallow embedding of [packages/typescript-vfs/src/index.ts]:
    [createSystem], [createVirtualCompilerHost],
    [createVirtualLanguageServiceHost], [createVirtualTypeScriptEnvironment]
    and [knownLibFilesForTarget].

    Conventions of the embedding.
    - A JavaScript string is a [string]; one character stands for one code
      unit, so [String.length] is [.length] and offsets count characters.
    - A JavaScript [Map] is an insertion-ordered association list with
      first-match lookup ([JsMap]); [Map] objects that are passed around by
      reference live in a [Heap], so that aliasing is visible.
    - A JavaScript integer-valued number is a [Z] (offsets, enum members);
      the project version counter, only ever incremented from 0, is an [N].
    - A call that can throw returns a [Completion] together with the state
      at the time it returned or threw.
    - The [typescript] module, which every function of the file receives as
      its argument [ts], is the class [TS]; what the file relies on about it
      is the class [TSLaws]. The language service is asked for its program
      after every change of the project version, so its program is taken
      to be a function of what the host answers at the time of the call.
    - The counter is exact as long as it stays below 2^53, where a
      JavaScript number stops counting. *)

From Stdlib Require Import ZArith Ascii String List Lia.
From stdpp Require Import base option list strings pretty gmap.


(** ** JavaScript strings *)

Module JsString.

(** [s.startsWith(search)], position 0. *)
Fixpoint startsWith (s search : string) {struct search} : bool :=
  match search, s with
  | EmptyString, _ => true
  | String c search', String d s' => if Ascii.eqb c d then startsWith s' search' else false
  | String _ _, EmptyString => false
  end.

Fixpoint take (n : nat) (s : string) : string :=
  match n, s with
  | S n', String c s' => String c (take n' s')
  | _, _ => EmptyString
  end.

Fixpoint drop (n : nat) (s : string) : string :=
  match n, s with
  | S n', String _ s' => drop n' s'
  | _, _ => s
  end.

(** Clamping of a relative index, as [String.prototype.slice] does it:
    a negative index counts from the end, and the result stays within
    [0 .. len]. *)
Definition clamp (len : Z) (i : Z) : Z :=
  if (i <? 0)%Z then Z.max (len + i) 0 else Z.min i len.

(** [s.slice(start, end)]; [end = None] is the one-argument call. *)
Definition slice (s : string) (start : Z) (end_ : option Z) : string :=
  let len := Z.of_nat (String.length s) in
  let from := clamp len start in
  let to := match end_ with Some e => clamp len e | None => len end in
  take (Z.to_nat (Z.max (to - from) 0)) (drop (Z.to_nat from) s).

Definition lower_ascii (c : ascii) : ascii :=
  let n := nat_of_ascii c in
  if (65 <=? n)%nat && (n <=? 90)%nat then ascii_of_nat (n + 32) else c.

(** [s.toLowerCase()] on the ASCII range. *)
Fixpoint toLowerCase (s : string) : string :=
  match s with
  | EmptyString => EmptyString
  | String c s' => String (lower_ascii c) (toLowerCase s')
  end.

(** JavaScript truthiness of a string: every string but the empty one. *)
Definition truthy (s : string) : bool :=
  match s with EmptyString => false | String _ _ => true end.

End JsString.

(** ** JavaScript maps: insertion-ordered association lists *)

Definition JsMap (V : Type) : Type := list (string * V).

Section JsMapOps.
Context {V : Type}.

(** [m.get(k)]; [None] is [undefined]. *)
Fixpoint jsmap_get (k : string) (m : JsMap V) : option V :=
  match m with
  | [] => None
  | (k', v) :: m' => if String.eqb k k' then Some v else jsmap_get k m'
  end.

(** [m.has(k)]. *)
Definition jsmap_has (k : string) (m : JsMap V) : bool :=
  match jsmap_get k m with Some _ => true | None => false end.

(** [m.set(k, v)]: an existing key keeps its position, a new key goes
    to the end. *)
Fixpoint jsmap_set (k : string) (v : V) (m : JsMap V) : JsMap V :=
  match m with
  | [] => [(k, v)]
  | (k', v') :: m' =>
      if String.eqb k k' then (k, v) :: m' else (k', v') :: jsmap_set k v m'
  end.

(** [Array.from(m.keys())]. *)
Definition jsmap_keys (m : JsMap V) : list string := map fst m.

(** [new Map(entries)], and the object spread [{...base, ...entries}]:
    the entries are set one after the other. *)
Definition jsmap_assign (base entries : JsMap V) : JsMap V :=
  fold_left (fun acc kv => jsmap_set (fst kv) (snd kv) acc) entries base.

Definition jsmap_new (entries : JsMap V) : JsMap V := jsmap_assign [] entries.

(** The keys of a [Map] object are pairwise distinct. *)
Definition jsmap_wf (m : JsMap V) : Prop := NoDup (jsmap_keys m).

End JsMapOps.

(** ** Errors, completions, and the heap of [Map] objects *)

Inductive JsError : Type :=
| Error (message : string)
| TypeError (message : string).

Inductive Completion (A : Type) : Type :=
| Normal (a : A)
| Throw (e : JsError).
Arguments Normal {A} a.
Arguments Throw {A} e.

Abbreviation loc := positive (only parsing).

(** The [Map<string, string>] objects that exist, by reference. *)
Abbreviation Heap := (gmap loc (JsMap string)) (only parsing).

Definition heap_read (h : Heap) (l : loc) : JsMap string := default [] (h !! l).

Definition heap_alloc (m : JsMap string) (h : Heap) : loc * Heap :=
  let l := fresh (dom h) in (l, <[l := m]> h).

(** Code of the system layer: it runs on the heap only. *)
Definition IO (A : Type) : Type := Heap -> Completion A * Heap.

(** ** [createSystem] *)

Definition AUDIT : bool := false.

(** [notImplemented(methodName)] *)
Definition notImplemented {A : Type} (methodName : string) : IO A :=
  fun h => (Throw (Error ("Method '" +:+ methodName +:+ "' is not implemented.")), h).

(** [audit(name, fn)]: with [AUDIT] off the wrapper only forwards the call. *)
Definition audit {A B : Type} (name : string) (fn : A -> IO B) : A -> IO B :=
  fun args => if AUDIT then fn args else fn args.

(** The members of [System] that the file defines. *)
Record System : Type := {
  args : list string;
  createDirectory : string -> IO unit;
  directoryExists : string -> IO bool;
  exit : option Z -> IO unit;
  fileExists : string -> IO bool;
  getCurrentDirectory : string;
  getDirectories : list string;
  getExecutingFilePath : IO string;
  readDirectory : string -> IO (list string);
  readFile : string -> IO (option string);
  resolvePath : string -> string;
  newLine : string;
  useCaseSensitiveFileNames : bool;
  write : string -> IO unit;
  writeFile : string -> string -> IO unit
}.

(** The object literal of [createSystem], closed over the reference
    [files] of its private map. *)
Definition system_of (files : loc) : System := {|
  args := [];
  createDirectory := fun _ => notImplemented "createDirectory";
  directoryExists := audit "directoryExists" (fun directory h =>
    (Normal (existsb (fun path => JsString.startsWith path directory)
                     (jsmap_keys (heap_read h files))), h));
  exit := fun _ => notImplemented "exit";
  fileExists := audit "fileExists" (fun fileName h =>
    (Normal (jsmap_has fileName (heap_read h files)), h));
  getCurrentDirectory := "/";
  getDirectories := [];
  getExecutingFilePath := notImplemented "getExecutingFilePath";
  readDirectory := audit "readDirectory" (fun directory h =>
    (Normal (if String.eqb directory "/" then jsmap_keys (heap_read h files) else []), h));
  readFile := audit "readFile" (fun fileName h =>
    (Normal (jsmap_get fileName (heap_read h files)), h));
  resolvePath := fun path => path;
  newLine := String (ascii_of_nat 10) EmptyString;
  useCaseSensitiveFileNames := true;
  write := fun _ => notImplemented "write";
  writeFile := fun fileName contents h =>
    (Normal tt, <[files := jsmap_set fileName contents (heap_read h files)]> h)
|}.

(** [createSystem(files)]: [files = new Map(files)] allocates the copy,
    and the returned object refers to the copy only. *)
Definition createSystem (files : loc) : IO System :=
  fun h =>
    let (files', h') := heap_alloc (jsmap_new (heap_read h files)) h in
    (Normal (system_of files'), h').

(** ** The [typescript] module *)

(** The values of the compiler options the file sets: flags and enum
    members. *)
Inductive OptionValue : Type :=
| OBool (b : bool)
| ONumber (n : Z).

Definition CompilerOptions : Type := JsMap OptionValue.

Record TextSpan : Type := { start : Z; span_length : Z }.

Record TextChangeRange : Type := { span : TextSpan; newLength : Z }.

(** What the language service can learn from its host at one moment: the
    answers of the host's getters. The service pulls; it is never pushed
    anything. *)
Record HostAnswers : Type := {
  answer_getProjectVersion : string;
  answer_getCompilationSettings : CompilerOptions;
  answer_getScriptFileNames : list string;
  answer_getScriptSnapshot : string -> option string;
  answer_getScriptVersion : string -> string;
  answer_fileExists : string -> bool;
  answer_readFile : string -> option string
}.

(** The part of the [typescript] module that the file calls. A source
    file is known by its [fileName] and [text]. [program_getSourceFile]
    is [languageService.getProgram().getSourceFile(fileName)] and
    [getCompilerOptionsDiagnostics] the language service's method of that
    name, both for a service created on a host that gives these answers;
    [ScriptTarget_name] is the reverse mapping [ts.ScriptTarget[target]]. *)
Class TS : Type := {
  SourceFile : Type;
  fileName : SourceFile -> string;
  text : SourceFile -> string;
  Diagnostic : Type;
  getDefaultCompilerOptions : CompilerOptions;
  JsxEmit_React : Z;
  ScriptTarget_ES2015 : Z;
  ModuleKind_ESNext : Z;
  ModuleResolutionKind_NodeJs : Z;
  ScriptTarget_name : Z -> option string;
  createSourceFile : string -> string -> option OptionValue -> bool -> SourceFile;
  updateSourceFile : SourceFile -> string -> TextChangeRange -> SourceFile;
  program_getSourceFile : HostAnswers -> string -> option SourceFile;
  getCompilerOptionsDiagnostics : HostAnswers -> list Diagnostic;
  formatDiagnostics : list Diagnostic -> string
}.

(** What the file relies on: a source file carries the name and the text
    it was made from; the program of a language service holds, under a
    name, a source file of that name whose text is the snapshot the host
    gives for it; and every script file name for which the host gives a
    snapshot is in the program. *)
Class TSLaws (ts : TS) : Prop := {
  createSourceFile_fileName f c t b : fileName (createSourceFile f c t b) = f;
  createSourceFile_text f c t b : text (createSourceFile f c t b) = c;
  updateSourceFile_fileName sf newText r :
    fileName (updateSourceFile sf newText r) = fileName sf;
  updateSourceFile_text sf newText r : text (updateSourceFile sf newText r) = newText;
  program_getSourceFile_fileName host f sf :
    program_getSourceFile host f = Some sf -> fileName sf = f;
  program_getSourceFile_text host f sf :
    program_getSourceFile host f = Some sf ->
    answer_getScriptSnapshot host f = Some (text sf);
  program_getSourceFile_root host f t :
    In f (answer_getScriptFileNames host) ->
    answer_getScriptSnapshot host f = Some t ->
    is_Some (program_getSourceFile host f)
}.

Section Vfs.
Context {ts : TS}.

(** [defaultCompilerOptions(ts)] *)
Definition defaultCompilerOptions : CompilerOptions :=
  jsmap_assign getDefaultCompilerOptions
    [ ("jsx", ONumber JsxEmit_React);
      ("strict", OBool true);
      ("target", ONumber ScriptTarget_ES2015);
      ("esModuleInterop", OBool true);
      ("module", ONumber ModuleKind_ESNext);
      ("suppressOutputPathCheck", OBool true);
      ("skipLibCheck", OBool true);
      ("skipDefaultLibCheck", OBool true);
      ("moduleResolution", ONumber ModuleResolutionKind_NodeJs) ].

(** *** State

    The variables the closures of one environment capture: the heap
    (with the private map of the system in it), [sourceFiles] of
    [createVirtualCompilerHost], and [fileNames], [fileVersions] and
    [projectVersion] of [createVirtualLanguageServiceHost]. *)
Record World : Type := {
  heap : Heap;
  sourceFiles : JsMap SourceFile;
  fileNames : list string;
  fileVersions : JsMap string;
  projectVersion : N
}.

Definition M (A : Type) : Type := World -> Completion A * World.

Definition ret {A : Type} (a : A) : M A := fun w => (Normal a, w).

Definition bind {A B : Type} (m : M A) (k : A -> M B) : M B :=
  fun w =>
    match m w with
    | (Normal a, w') => k a w'
    | (Throw e, w') => (Throw e, w')
    end.

Definition throw {A : Type} (e : JsError) : M A := fun w => (Throw e, w).

Definition get : M World := fun w => (Normal w, w).

Definition modify (f : World -> World) : M unit := fun w => (Normal tt, f w).

Definition liftIO {A : Type} (io : IO A) : M A :=
  fun w =>
    let (r, h') := io (heap w) in
    (r, {| heap := h'; sourceFiles := sourceFiles w; fileNames := fileNames w;
           fileVersions := fileVersions w; projectVersion := projectVersion w |}).

Definition set_sourceFiles (m : JsMap SourceFile) (w : World) : World :=
  {| heap := heap w; sourceFiles := m; fileNames := fileNames w;
     fileVersions := fileVersions w; projectVersion := projectVersion w |}.

Definition set_fileNames (l : list string) (w : World) : World :=
  {| heap := heap w; sourceFiles := sourceFiles w; fileNames := l;
     fileVersions := fileVersions w; projectVersion := projectVersion w |}.

Definition set_fileVersions (m : JsMap string) (w : World) : World :=
  {| heap := heap w; sourceFiles := sourceFiles w; fileNames := fileNames w;
     fileVersions := m; projectVersion := projectVersion w |}.

Definition set_projectVersion (n : N) (w : World) : World :=
  {| heap := heap w; sourceFiles := sourceFiles w; fileNames := fileNames w;
     fileVersions := fileVersions w; projectVersion := n |}.

End Vfs.

Notation "'let*' x ':=' c1 'in' c2" := (bind c1 (fun x => c2))
  (at level 10, x pattern, c1 at level 100, c2 at level 200).
Notation "c1 ';;' c2" := (bind c1 (fun _ => c2))
  (at level 100, c2 at level 200, right associativity).

Section Hosts.
Context {ts : TS}.

(** *** [createVirtualCompilerHost] *)

(** [const sourceFiles = new Map()] *)
Definition createVirtualCompilerHost (sys : System) (compilerOptions : CompilerOptions)
  : M unit :=
  modify (set_sourceFiles []).

(** [vHost.updateFile] *)
Definition vHost_updateFile (sys : System) (sourceFile : SourceFile) : M bool :=
  let* w := get in
  let alreadyExists := jsmap_has (fileName sourceFile) (sourceFiles w) in
  liftIO (writeFile sys (fileName sourceFile) (text sourceFile)) ;;
  modify (fun w => set_sourceFiles
                     (jsmap_set (fileName sourceFile) sourceFile (sourceFiles w)) w) ;;
  ret alreadyExists.

(** *** [createVirtualLanguageServiceHost] *)

(** [const fileNames = [...rootFiles]], the compiler host,
    [const fileVersions = new Map()], [let projectVersion = 0]. *)
Definition createVirtualLanguageServiceHost
    (sys : System) (rootFiles : list string) (compilerOptions : CompilerOptions)
  : M unit :=
  modify (set_fileNames rootFiles) ;;
  createVirtualCompilerHost sys compilerOptions ;;
  modify (set_fileVersions []) ;;
  modify (set_projectVersion 0).

(** [projectVersion.toString()] *)
Definition getProjectVersion : M string :=
  let* w := get in ret (pretty (projectVersion w)).

Definition getScriptFileNames : M (list string) :=
  let* w := get in ret (fileNames w).

(** The guard [if (contents)] is the truthiness of [contents]:
    [undefined] and the empty string both fail it. *)
Definition getScriptSnapshot (sys : System) (fileName : string) : M (option string) :=
  let* contents := liftIO (readFile sys fileName) in
  match contents with
  | Some c => if JsString.truthy c then ret (Some c) else ret None
  | None => ret None
  end.

(** [fileVersions.get(fileName) || '0'] *)
Definition getScriptVersion (fileName : string) : M string :=
  let* w := get in
  match jsmap_get fileName (fileVersions w) with
  | Some v => if JsString.truthy v then ret v else ret "0"
  | None => ret "0"
  end.

(** [fileNames.includes(name)] *)
Definition includes (l : list string) (name : string) : bool :=
  existsb (String.eqb name) l.

(** [lsHost.updateFile] *)
Definition lsHost_updateFile (sys : System) (sourceFile : SourceFile) : M unit :=
  modify (fun w => set_projectVersion (projectVersion w + 1) w) ;;
  modify (fun w => set_fileVersions
                     (jsmap_set (fileName sourceFile) (pretty (projectVersion w))
                                (fileVersions w)) w) ;;
  (let* w := get in
   if negb (includes (fileNames w) (fileName sourceFile))
   then modify (set_fileNames (fileNames w ++ [fileName sourceFile]))
   else ret tt) ;;
  vHost_updateFile sys sourceFile ;;
  ret tt.

(** The value a getter of the host gives when it is called in [w]. *)
Definition answer {A : Type} (undefined : A) (m : M A) (w : World) : A :=
  match fst (m w) with
  | Normal a => a
  | Throw _ => undefined
  end.

(** The [languageServiceHost] object as the language service sees it
    in [w]. *)
Definition languageServiceHost
    (sys : System) (compilerOptions : CompilerOptions) (w : World) : HostAnswers := {|
  answer_getProjectVersion := answer "" getProjectVersion w;
  answer_getCompilationSettings := compilerOptions;
  answer_getScriptFileNames := answer [] getScriptFileNames w;
  answer_getScriptSnapshot := fun fileName => answer None (getScriptSnapshot sys fileName) w;
  answer_getScriptVersion := fun fileName => answer "" (getScriptVersion fileName) w;
  answer_fileExists := fun fileName => answer false (liftIO (fileExists sys fileName)) w;
  answer_readFile := fun fileName => answer None (liftIO (readFile sys fileName)) w
|}.

(** *** [createVirtualTypeScriptEnvironment] *)

(** [createFile] of the returned environment. *)
Definition createFile (sys : System) (mergedCompilerOptions : CompilerOptions)
    (fileName content : string) : M unit :=
  lsHost_updateFile sys
    (createSourceFile fileName content (jsmap_get "target" mergedCompilerOptions) false).

(** [updateFile] of the returned environment. Reading [.text] of a
    source file that the program does not have throws a [TypeError]. *)
Definition updateFile (sys : System) (mergedCompilerOptions : CompilerOptions)
    (fileName content : string) (prevTextSpan : TextSpan) : M unit :=
  let* w := get in
  match program_getSourceFile (languageServiceHost sys mergedCompilerOptions w) fileName with
  | None => throw (TypeError "Cannot read property 'text' of undefined")
  | Some prevSourceFile =>
      let prevFullContents := text prevSourceFile in
      let newText :=
        JsString.slice prevFullContents 0 (Some (start prevTextSpan))
        +:+ content
        +:+ JsString.slice prevFullContents
              (start prevTextSpan + span_length prevTextSpan) None in
      let newSourceFile :=
        updateSourceFile prevSourceFile newText
          {| span := prevTextSpan; newLength := Z.of_nat (String.length content) |} in
      lsHost_updateFile sys newSourceFile
  end.

Record VirtualTypeScriptEnvironment : Type := {
  env_sys : System;
  env_createFile : string -> string -> M unit;
  env_updateFile : string -> string -> TextSpan -> M unit
}.

(** The object the constructor returns. *)
Definition environment (sys : System) (mergedCompilerOptions : CompilerOptions)
  : VirtualTypeScriptEnvironment :=
  {| env_sys := sys;
     env_createFile := createFile sys mergedCompilerOptions;
     env_updateFile := updateFile sys mergedCompilerOptions |}.

Definition createVirtualTypeScriptEnvironment
    (sys : System) (rootFiles : list string) (compilerOptions : CompilerOptions)
  : M VirtualTypeScriptEnvironment :=
  let mergedCompilerOptions := jsmap_assign defaultCompilerOptions compilerOptions in
  createVirtualLanguageServiceHost sys rootFiles mergedCompilerOptions ;;
  let* w := get in
  let diagnostics :=
    getCompilerOptionsDiagnostics (languageServiceHost sys mergedCompilerOptions w) in
  match diagnostics with
  | _ :: _ => throw (Error (formatDiagnostics diagnostics))
  | [] => ret (environment sys mergedCompilerOptions)
  end.

(** *** Sessions: a caller driving the environment *)

Inductive Call : Type :=
| CreateFile (fileName content : string)
| UpdateFile (fileName content : string) (prevTextSpan : TextSpan).

Definition call_fileName (c : Call) : string :=
  match c with
  | CreateFile f _ => f
  | UpdateFile f _ _ => f
  end.

Definition call (env : VirtualTypeScriptEnvironment) (c : Call) : M unit :=
  match c with
  | CreateFile f content => env_createFile env f content
  | UpdateFile f content s => env_updateFile env f content s
  end.

(** The state after a sequence of calls; a call that throws leaves the
    state it threw in, and the caller goes on with the next call. *)
Fixpoint calls (env : VirtualTypeScriptEnvironment) (cs : list Call) (w : World) : World :=
  match cs with
  | [] => w
  | c :: cs' => calls env cs' (snd (call env c w))
  end.

(** The project version tokens a caller reads, one after each call
    that returned. *)
Fixpoint observed_versions
    (env : VirtualTypeScriptEnvironment) (cs : list Call) (w : World) : list string :=
  match cs with
  | [] => []
  | c :: cs' =>
      match call env c w with
      | (Normal _, w') => answer "" getProjectVersion w' :: observed_versions env cs' w'
      | (Throw _, w') => observed_versions env cs' w'
      end
  end.

(** How many of the calls returned. *)
Fixpoint returned_calls
    (env : VirtualTypeScriptEnvironment) (cs : list Call) (w : World) : nat :=
  match cs with
  | [] => 0
  | c :: cs' =>
      match call env c w with
      | (Normal _, w') => S (returned_calls env cs' w')
      | (Throw _, w') => returned_calls env cs' w'
      end
  end.

Definition is_CreateFile (c : Call) : bool :=
  match c with
  | CreateFile _ _ => true
  | UpdateFile _ _ _ => false
  end.

(** The state of a language service host after [updateFile] was called
    on it with each of [sourceFiles] in turn. *)
Definition host_updates (sys : System) (sourceFiles : list SourceFile) (w : World)
  : World :=
  fold_left (fun w sourceFile => snd (lsHost_updateFile sys sourceFile w)) sourceFiles w.

End Hosts.

(** *** The input map of [createSystem] and the rest of the program

    What can happen to the heap once [createSystem(m)] has returned
    [sys]: the owner of [m] puts any content in [m], or someone calls
    [sys.writeFile]. *)
Inductive Event : Type :=
| MutateInput (content : JsMap string)
| CallWriteFile (fileName contents : string).

Definition is_CallWriteFile (e : Event) : bool :=
  match e with
  | MutateInput _ => false
  | CallWriteFile _ _ => true
  end.

Definition run_event (sys : System) (m : loc) (e : Event) (h : Heap) : Heap :=
  match e with
  | MutateInput content => <[m := content]> h
  | CallWriteFile fileName contents => snd (writeFile sys fileName contents h)
  end.

Definition run_events (sys : System) (m : loc) (es : list Event) (h : Heap) : Heap :=
  fold_left (fun h e => run_event sys m e h) es h.

(** The system gives the same answers to its four queries in [h] and
    in [h']. *)
Definition same_answers (sys : System) (h h' : Heap) : Prop :=
  forall x : string,
    fst (fileExists sys x h) = fst (fileExists sys x h') /\
    fst (readFile sys x h) = fst (readFile sys x h') /\
    fst (directoryExists sys x h) = fst (directoryExists sys x h') /\
    fst (readDirectory sys x h) = fst (readDirectory sys x h').

(** The token of the project version [i] steps after [pv]. *)
Definition token_after (pv : N) (i : nat) : string := pretty (pv + N.of_nat i)%N.

(** ** [knownLibFilesForTarget] *)

Section JsArray.
Context {A : Type}.

(** [l.slice(start, end)] *)
Definition array_slice (l : list A) (start end_ : Z) : list A :=
  let len := Z.of_nat (length l) in
  let from := JsString.clamp len start in
  let to := JsString.clamp len end_ in
  firstn (Z.to_nat (Z.max (to - from) 0)) (skipn (Z.to_nat from) l).

End JsArray.

Fixpoint indexOf_from (x : string) (l : list string) (i : Z) : Z :=
  match l with
  | [] => (-1)%Z
  | y :: l' => if String.eqb y x then i else indexOf_from x l' (i + 1)%Z
  end.

(** [l.indexOf(x)]; the index of [undefined], which no list of strings
    holds, is [-1]. *)
Definition indexOf (x : option string) (l : list string) : Z :=
  match x with
  | Some x => indexOf_from x l 0%Z
  | None => (-1)%Z
  end.

Definition files : list string :=
  [ "lib.d.ts";
    "lib.dom.d.ts";
    "lib.dom.iterable.d.ts";
    "lib.es5.d.ts";
    "lib.es6.d.ts";
    "lib.es2015.collection.d.ts";
    "lib.es2015.core.d.ts";
    "lib.es2015.d.ts";
    "lib.es2015.generator.d.ts";
    "lib.es2015.iterable.d.ts";
    "lib.es2015.promise.d.ts";
    "lib.es2015.proxy.d.ts";
    "lib.es2015.reflect.d.ts";
    "lib.es2015.symbol.d.ts";
    "lib.es2015.symbol.wellknown.d.ts";
    "lib.es2016.array.include.d.ts";
    "lib.es2016.d.ts";
    "lib.es2016.full.d.ts";
    "lib.es2017.d.ts";
    "lib.es2017.full.d.ts";
    "lib.es2017.intl.d.ts";
    "lib.es2017.object.d.ts";
    "lib.es2017.sharedmemory.d.ts";
    "lib.es2017.string.d.ts";
    "lib.es2017.typedarrays.d.ts";
    "lib.es2018.asyncgenerator.d.ts";
    "lib.es2018.asynciterable.d.ts";
    "lib.es2018.d.ts";
    "lib.es2018.full.d.ts";
    "lib.es2018.intl.d.ts";
    "lib.es2018.promise.d.ts";
    "lib.es2018.regexp.d.ts";
    "lib.es2019.array.d.ts";
    "lib.es2019.d.ts";
    "lib.es2019.full.d.ts";
    "lib.es2019.object.d.ts";
    "lib.es2019.string.d.ts";
    "lib.es2019.symbol.d.ts";
    "lib.es2020.d.ts";
    "lib.es2020.full.d.ts";
    "lib.es2020.string.d.ts";
    "lib.es2020.symbol.wellknown.d.ts";
    "lib.esnext.array.d.ts";
    "lib.esnext.asynciterable.d.ts";
    "lib.esnext.bigint.d.ts";
    "lib.esnext.d.ts";
    "lib.esnext.full.d.ts";
    "lib.esnext.intl.d.ts";
    "lib.esnext.symbol.d.ts" ].

(** The test of the [filter]: [f.startsWith(`lib.${targetToCut.toLowerCase()}`)]. *)
Definition matches_target (targetToCut : string) (f : string) : bool :=
  JsString.startsWith f ("lib." +:+ JsString.toLowerCase targetToCut).

(** Reading [.toLowerCase] of a target that the enum does not name
    throws; [matches.pop()] is the last match, [undefined] when there is
    none. *)
Definition knownLibFilesForTarget {ts : TS} (target : Z) : Completion (list string) :=
  match ScriptTarget_name target with
  | None => Throw (TypeError "Cannot read property 'toLowerCase' of undefined")
  | Some targetToCut =>
      let matches := List.filter (matches_target targetToCut) files in
      let cutIndex := indexOf (list.last matches) files in
      Normal (array_slice files 0 (cutIndex + 1))
  end.

(** ** Splicing

    [T[0:S.start] + F + T[S.start+S.length:]] for a span within [T]. *)
Definition in_bounds (S : TextSpan) (T : string) : Prop :=
  (0 <= start S /\ start S <= start S + span_length S /\
   start S + span_length S <= Z.of_nat (String.length T))%Z.

Definition splice (T F : string) (S : TextSpan) : string :=
  JsString.take (Z.to_nat (start S)) T +:+ F
  +:+ JsString.drop (Z.to_nat (start S + span_length S)) T.

(** ** The rest of the compiler host *)

(** JavaScript truthiness of the value of an option: [undefined],
    [false] and [0] fail it. *)
Definition option_truthy (v : option OptionValue) : bool :=
  match v with
  | Some (OBool b) => b
  | Some (ONumber n) => negb (n =? 0)%Z
  | None => false
  end.

(** [a || b] on the values of options. *)
Definition js_or (a b : option OptionValue) : option OptionValue :=
  if option_truthy a then a else b.

Section CompilerHost.
Context {ts : TS}.

(** What [ts.createSourceFile] does when the text it is given is
    [undefined], which is what [sys.readFile(fileName)!] is for a file
    that the store does not hold. *)
Variable createSourceFile_undefined :
  string -> option OptionValue -> bool -> Completion SourceFile.

(** [save] *)
Definition save (sourceFile : SourceFile) : M SourceFile :=
  modify (fun w => set_sourceFiles
                     (jsmap_set (fileName sourceFile) sourceFile (sourceFiles w)) w) ;;
  ret sourceFile.

(** [compilerHost.getSourceFile]: the cached source file, or else the
    stored text parsed at [compilerOptions.target ||
    defaultCompilerOptions(ts).target] and saved. *)
Definition getSourceFile (sys : System) (compilerOptions : CompilerOptions)
    (fileName : string) : M SourceFile :=
  let* w := get in
  match jsmap_get fileName (sourceFiles w) with
  | Some sourceFile => ret sourceFile
  | None =>
      let* contents := liftIO (readFile sys fileName) in
      let target := js_or (jsmap_get "target" compilerOptions)
                          (jsmap_get "target" defaultCompilerOptions) in
      match contents with
      | Some text => save (createSourceFile fileName text target false)
      | None =>
          match createSourceFile_undefined fileName target false with
          | Normal sourceFile => save sourceFile
          | Throw e => throw e
          end
      end
  end.

(** The state of a compiler host after [updateFile] was called on it
    with each of [sourceFiles] in turn. *)
Definition vHost_updates (sys : System) (sourceFiles : list SourceFile) (w : World)
  : World :=
  fold_left (fun w sourceFile => snd (vHost_updateFile sys sourceFile w)) sourceFiles w.

(** Whether one of [sfs] has the file name [f]. *)
Definition updated (sfs : list SourceFile) (f : string) : bool :=
  existsb (fun sf => String.eqb (fileName sf) f) sfs.

End CompilerHost.

(** ** [createDefaultMapFromNodeModules] *)

Section NodeModules.
Context {ts : TS}.

(** [getLib(name)]: the text of the file [name] in the directory of the
    installed [typescript] package, read with [fs.readFileSync], which
    throws when it cannot read the file. *)
Variable getLib : string -> Completion string.

(** [libs.forEach(lib => { fsMap.set('/' + lib, getLib(lib)) })] *)
Fixpoint set_libs (fsMap : loc) (libs : list string) : IO unit :=
  fun h =>
    match libs with
    | [] => (Normal tt, h)
    | lib :: libs' =>
        match getLib lib with
        | Normal contents =>
            set_libs fsMap libs'
              (<[fsMap := jsmap_set ("/" +:+ lib) contents (heap_read h fsMap)]> h)
        | Throw e => (Throw e, h)
        end
    end.

(** The function returns the reference of the map it made. *)
Definition createDefaultMapFromNodeModules (target : Z) : IO loc :=
  fun h =>
    match knownLibFilesForTarget target with
    | Throw e => (Throw e, h)
    | Normal libs =>
        let (fsMap, h1) := heap_alloc [] h in
        match set_libs fsMap libs h1 with
        | (Normal _, h2) => (Normal fsMap, h2)
        | (Throw e, h2) => (Throw e, h2)
        end
    end.

(** The entries the function sets for the library names [libs] whose
    files hold [contents]. *)
Definition lib_entries (contents : string -> string) (libs : list string) : JsMap string :=
  map (fun lib => ("/" +:+ lib, contents lib)) libs.

End NodeModules.

(** ** A reference [typescript] module

    The smallest module that obeys [TSLaws]: a source file is its name
    and text, and the program of a language service holds the script
    files of its host for which the host gives a snapshot, and no others. *)

Record RefSourceFile : Type := { ref_fileName : string; ref_text : string }.

Definition ref_program_getSourceFile (host : HostAnswers) (f : string)
  : option RefSourceFile :=
  if includes (answer_getScriptFileNames host) f
  then match answer_getScriptSnapshot host f with
       | Some t => Some {| ref_fileName := f; ref_text := t |}
       | None => None
       end
  else None.

(** The members of [ts.ScriptTarget] by value; [Latest] is declared
    last with the value of [ESNext] and takes its place in the reverse
    mapping. *)
Definition ref_ScriptTarget_name (target : Z) : option string :=
  match target with
  | 0%Z => Some "ES3"
  | 1%Z => Some "ES5"
  | 2%Z => Some "ES2015"
  | 3%Z => Some "ES2016"
  | 4%Z => Some "ES2017"
  | 5%Z => Some "ES2018"
  | 6%Z => Some "ES2019"
  | 7%Z => Some "ES2020"
  | 99%Z => Some "Latest"
  | 100%Z => Some "JSON"
  | _ => None
  end.

Definition tsRef : TS := {|
  SourceFile := RefSourceFile;
  fileName := ref_fileName;
  text := ref_text;
  Diagnostic := string;
  getDefaultCompilerOptions := [];
  JsxEmit_React := 2;
  ScriptTarget_ES2015 := 2;
  ModuleKind_ESNext := 99;
  ModuleResolutionKind_NodeJs := 2;
  ScriptTarget_name := ref_ScriptTarget_name;
  createSourceFile := fun f c _ _ => {| ref_fileName := f; ref_text := c |};
  updateSourceFile := fun sf newText _ =>
    {| ref_fileName := ref_fileName sf; ref_text := newText |};
  program_getSourceFile := ref_program_getSourceFile;
  getCompilerOptionsDiagnostics := fun _ => [];
  formatDiagnostics := fun ds => String.concat "" ds
|}.

(** ** Example sessions *)

(** A heap with one map, [{"/a.ts" => "let x = 1;"}], at reference 1. *)
Definition heap_a : Heap := <[1%positive := [("/a.ts", "let x = 1;")]]> ∅.

(** The world before any environment exists. *)
Definition world_of {ts : TS} (h : Heap) : World :=
  {| heap := h; sourceFiles := []; fileNames := []; fileVersions := [];
     projectVersion := 0 |}.

(** [createSystem(files)] followed by
    [createVirtualTypeScriptEnvironment(sys, rootFiles, ts, {})]. *)
Definition boot {ts : TS} (files : loc) (rootFiles : list string)
  : M VirtualTypeScriptEnvironment :=
  let* sys := liftIO (createSystem files) in
  createVirtualTypeScriptEnvironment sys rootFiles [].

(** The system that [createSystem] returns for the map at reference 1
    of [heap_a], and the heap it leaves: the copy is at reference 2. *)
Definition sys_a : System := system_of 2%positive.

Definition heap_a' : Heap := <[2%positive := [("/a.ts", "let x = 1;")]]> heap_a.

(** The environment that [boot] returns on the reference module, and the
    state it leaves, for each list of root files. *)
Definition opts_a : CompilerOptions := jsmap_assign (defaultCompilerOptions (ts := tsRef)) [].

Definition env_a : VirtualTypeScriptEnvironment (ts := tsRef) := environment sys_a opts_a.

Definition world_a (rootFiles : list string) : World (ts := tsRef) :=
  {| heap := heap_a'; sourceFiles := []; fileNames := rootFiles; fileVersions := [];
     projectVersion := 0 |}.

(** A second system made from the same map: its copy is at reference 3. *)
Definition sys_b : System := system_of 3%positive.

Definition heap_b : Heap := <[3%positive := [("/a.ts", "let x = 1;")]]> heap_a'.

(** The source file of ["/a.ts"] as the reference module makes it. *)
Definition sf_a : RefSourceFile := {| ref_fileName := "/a.ts"; ref_text := "let x = 1;" |}.

(** A parser that rejects the text [undefined]. *)
Definition createSourceFile_undefined_a
    (fileName : string) (target : option OptionValue) (setParentNodes : bool)
  : Completion RefSourceFile :=
  Throw (TypeError "Cannot read property 'length' of undefined").

(** An installation in which every library file can be read, and one in
    which ["lib.dom.d.ts"] is missing; the library names of ES5. *)
Definition contents_a (lib : string) : string := "// " +:+ lib.

Definition getLib_a (lib : string) : Completion string := Normal (contents_a lib).

Definition getLib_b (lib : string) : Completion string :=
  if String.eqb lib "lib.dom.d.ts" then Throw (Error "ENOENT") else getLib_a lib.

Definition libs_es5 : list string :=
  ["lib.d.ts"; "lib.dom.d.ts"; "lib.dom.iterable.d.ts"; "lib.es5.d.ts"].

Definition heap_libs : Heap := <[2%positive := lib_entries contents_a libs_es5]> heap_a.

(** * Properties *)

(** ** Strings *)

Lemma startsWith_app (s search : string) :
  JsString.startsWith s search = true <-> exists rest, s = search +:+ rest.
Proof.
  revert s. induction search as [|c search IH]; intros s; simpl.
  - split; [intros _; exists s; reflexivity | reflexivity].
  - destruct s as [|d s].
    + split; [discriminate | intros [rest Hrest]; discriminate].
    + destruct (Ascii.eqb_spec c d) as [->|Hne].
      * rewrite IH. split; intros [rest Hrest]; exists rest.
        -- now rewrite Hrest.
        -- now injection Hrest.
      * split; [discriminate | intros [rest Hrest]].
        injection Hrest as Hd _. congruence.
Qed.

Lemma string_take_app (s t : string) : JsString.take (String.length s) (s +:+ t) = s.
Proof. induction s as [|c s IH]; simpl; [now destruct t | now rewrite IH]. Qed.

Lemma take_all (n : nat) (s : string) : String.length s <= n -> JsString.take n s = s.
Proof.
  revert n. induction s as [|c s IH]; intros [|n] Hn; simpl in *; try reflexivity; try lia.
  rewrite IH; [reflexivity | lia].
Qed.

Lemma length_drop (n : nat) (s : string) :
  String.length (JsString.drop n s) = String.length s - n.
Proof.
  revert n. induction s as [|c s IH]; intros [|n]; simpl; try reflexivity.
  apply IH.
Qed.

(** Within the bounds of the text, [slice(0, a)] keeps the first [a]
    characters and [slice(b)] drops the first [b]. *)
Lemma slice_prefix (s : string) (a : Z) :
  (0 <= a <= Z.of_nat (String.length s))%Z ->
  JsString.slice s 0 (Some a) = JsString.take (Z.to_nat a) s.
Proof.
  intros Ha. unfold JsString.slice, JsString.clamp.
  destruct (Z.ltb_spec 0 0); [lia|].
  destruct (Z.ltb_spec a 0); [lia|].
  rewrite !Z.min_l by lia.
  rewrite Z.sub_0_r, Z.max_l by lia. reflexivity.
Qed.

Lemma slice_suffix (s : string) (b : Z) :
  (0 <= b <= Z.of_nat (String.length s))%Z ->
  JsString.slice s b None = JsString.drop (Z.to_nat b) s.
Proof.
  intros Hb. unfold JsString.slice, JsString.clamp.
  destruct (Z.ltb_spec b 0); [lia|].
  rewrite Z.min_l by lia. apply take_all.
  rewrite length_drop. lia.
Qed.

(** ** Maps *)

Section JsMapFacts.
Context {V : Type}.
Implicit Types (m : JsMap V) (k : string) (v : V).

Lemma jsmap_get_set_eq k v m : jsmap_get k (jsmap_set k v m) = Some v.
Proof.
  induction m as [|[k' v'] m IH]; simpl.
  - now rewrite String.eqb_refl.
  - destruct (String.eqb_spec k k') as [->|Hne]; simpl.
    + now rewrite String.eqb_refl.
    + destruct (String.eqb_spec k k'); [contradiction | exact IH].
Qed.

Lemma jsmap_get_set_ne k k' v m :
  k <> k' -> jsmap_get k' (jsmap_set k v m) = jsmap_get k' m.
Proof.
  intros Hne. induction m as [|[k0 v0] m IH]; simpl.
  - destruct (String.eqb_spec k' k); [congruence | reflexivity].
  - destruct (String.eqb_spec k k0) as [->|Hk]; simpl.
    + destruct (String.eqb_spec k' k0); [congruence | reflexivity].
    + destruct (String.eqb_spec k' k0); [reflexivity | exact IH].
Qed.

Lemma jsmap_get_None k m : jsmap_get k m = None <-> ~ In k (jsmap_keys m).
Proof.
  induction m as [|[k' v'] m IH]; simpl.
  - tauto.
  - destruct (String.eqb_spec k k') as [->|Hne].
    + split; [discriminate | intros H; exfalso; apply H; now left].
    + rewrite IH. split; [intros H [?|?]; [congruence | tauto] | tauto].
Qed.

Lemma jsmap_has_In k m : jsmap_has k m = true <-> In k (jsmap_keys m).
Proof.
  unfold jsmap_has. pose proof (jsmap_get_None k m) as H.
  destruct (jsmap_get k m).
  - split; [intros _ | reflexivity].
    destruct (List.in_dec String.string_dec k (jsmap_keys m)) as [Hin|Hout]; [exact Hin|].
    apply H in Hout. discriminate.
  - split; [discriminate | intros Hin]. exfalso. now apply H.
Qed.

Lemma jsmap_set_fresh k v m :
  ~ In k (jsmap_keys m) -> jsmap_set k v m = m ++ [(k, v)].
Proof.
  induction m as [|[k' v'] m IH]; simpl; intros Hout; [reflexivity|].
  destruct (String.eqb_spec k k') as [->|Hne]; [tauto|].
  rewrite IH; [reflexivity | tauto].
Qed.

Lemma jsmap_assign_wf (base entries : JsMap V) :
  jsmap_wf (base ++ entries) -> jsmap_assign base entries = base ++ entries.
Proof.
  unfold jsmap_assign, jsmap_wf, jsmap_keys.
  revert base. induction entries as [|[k v] entries IH]; intros base Hwf; simpl.
  - now rewrite app_nil_r.
  - rewrite map_app in Hwf. simpl in Hwf.
    apply NoDup_app in Hwf as (Hb & Hdis & He).
    rewrite jsmap_set_fresh.
    + rewrite IH; [now rewrite <- app_assoc|].
      rewrite <- app_assoc, map_app. simpl.
      apply NoDup_app. split; [exact Hb|]. split; [exact Hdis | exact He].
    + intros Hin. apply (Hdis k); [now apply list_elem_of_In | left].
Qed.

(** Copying a map with [new Map(m)] gives a map with the entries of
    [m], in the order of [m]. *)
Lemma jsmap_new_wf m : jsmap_wf m -> jsmap_new m = m.
Proof. intros Hwf. unfold jsmap_new. now rewrite jsmap_assign_wf. Qed.

End JsMapFacts.

(** ** The system *)

Lemma createSystem_inv (m : loc) (h0 h1 : Heap) (sys : System) :
  createSystem m h0 = (Normal sys, h1) ->
  exists files : loc,
    sys = system_of files /\ h0 !! files = None /\
    h1 = <[files := jsmap_new (heap_read h0 m)]> h0.
Proof.
  unfold createSystem, heap_alloc. intros H. injection H as <- <-.
  exists (fresh (dom h0)). split; [reflexivity|]. split; [|reflexivity].
  apply not_elem_of_dom, is_fresh.
Qed.

Lemma heap_read_insert_eq (h : Heap) (l : loc) (v : JsMap string) :
  heap_read (<[l := v]> h) l = v.
Proof. unfold heap_read. now rewrite lookup_insert_eq. Qed.

Lemma heap_read_insert_ne (h : Heap) (l l' : loc) (v : JsMap string) :
  l <> l' -> heap_read (<[l := v]> h) l' = heap_read h l'.
Proof. intros Hne. unfold heap_read. now rewrite lookup_insert_ne. Qed.

Lemma same_store_same_answers (files : loc) (h h' : Heap) :
  heap_read h files = heap_read h' files -> same_answers (system_of files) h h'.
Proof. intros Heq x. cbn. now rewrite Heq. Qed.

Lemma run_events_private (files m : loc) (es : list Event) (h h' : Heap) :
  files <> m ->
  heap_read h files = heap_read h' files ->
  heap_read (run_events (system_of files) m es h) files =
  heap_read (run_events (system_of files) m (List.filter is_CallWriteFile es) h') files.
Proof.
  intros Hne. unfold run_events. revert h h'.
  induction es as [|[content|f c] es IH]; intros h h' Heq; simpl.
  - exact Heq.
  - apply IH. rewrite heap_read_insert_ne by congruence. exact Heq.
  - apply IH. rewrite !heap_read_insert_eq. now rewrite Heq.
Qed.

Lemma jsmap_keys_set_In {V : Type} (p k : string) (v : V) (m : JsMap V) :
  In p (jsmap_keys (jsmap_set k v m)) <-> p = k \/ In p (jsmap_keys m).
Proof.
  induction m as [|[k' v'] m IH]; simpl.
  - split; [intros [H|[]]; now left | intros [H|[]]; now left].
  - destruct (String.eqb_spec k k') as [->|Hne]; simpl.
    + split; [intros [H|H]; [left; congruence | right; now right] |
              intros [H|[H|H]]; [left; congruence | left; congruence | now right]].
    + rewrite IH. split.
      * intros [H|[H|H]]; [right; now left | now left | right; now right].
      * intros [H|[H|H]]; [right; now left | now left | right; now right].
Qed.

Lemma jsmap_keys_assign_In {V : Type} (p : string) (base entries : JsMap V) :
  In p (jsmap_keys (jsmap_assign base entries))
  <-> In p (jsmap_keys base) \/ In p (jsmap_keys entries).
Proof.
  unfold jsmap_assign. revert base.
  induction entries as [|[k v] entries IH]; intros base; cbn [fold_left fst snd].
  - simpl. tauto.
  - rewrite IH, jsmap_keys_set_In. simpl. split.
    + intros [[H|H]|H]; [right; left; congruence | now left | right; now right].
    + intros [H|[H|H]]; [left; now right | left; left; congruence | now right].
Qed.

(** The paths written by a sequence of [writeFile] calls end up as keys
    of the map, next to the keys it had. *)
Lemma writes_keys (files : loc) (ws : list (string * string)) (h : Heap) (p : string) :
  In p (jsmap_keys (heap_read
          (fold_left (fun h fc => snd (writeFile (system_of files) (fst fc) (snd fc) h)) ws h)
          files))
  <-> In p (jsmap_keys (heap_read h files)) \/ In p (map fst ws).
Proof.
  revert h. induction ws as [|[f c] ws IH]; intros h; cbn [fold_left map fst snd].
  - simpl. tauto.
  - rewrite IH. cbn [writeFile system_of snd].
    rewrite heap_read_insert_eq, jsmap_keys_set_In. simpl. split.
    + intros [[H|H]|H]; [right; left; congruence | now left | right; now right].
    + intros [H|[H|H]]; [left; now right | left; left; congruence | now right].
Qed.

(** C7. The system that [createSystem] returns keeps its store in one
    map of the heap, at [files]: the map starts as the copy of the input
    map, and [writeFile(f, c)] sets [f] in it, so that after any
    sequence of writes its keys, the stored paths, are the keys of the
    input map and the paths written. In every state of that map and for
    every string [D]: [fileExists(p)] is [true] exactly for the stored
    paths; [directoryExists(D)] returns [true] exactly when some stored
    path is [D] followed by some rest; [readDirectory("/")] returns the
    list of the stored paths; and [readDirectory(D)] returns the empty
    list for every other [D]. None of the queries throws or changes the
    heap. *)
Theorem directoryExists_prefix_readDirectory_root
    (m : loc) (h0 h1 : Heap) (sys : System) :
  createSystem m h0 = (Normal sys, h1) ->
  exists files : loc,
    heap_read h1 files = jsmap_new (heap_read h0 m) /\
    (forall (h : Heap) (f c : string),
       exists h' : Heap,
         writeFile sys f c h = (Normal tt, h') /\
         heap_read h' files = jsmap_set f c (heap_read h files)) /\
    (forall (ws : list (string * string)) (p : string),
       In p (jsmap_keys (heap_read
               (fold_left (fun h fc => snd (writeFile sys (fst fc) (snd fc) h)) ws h1)
               files))
       <-> In p (jsmap_keys (heap_read h0 m)) \/ In p (map fst ws)) /\
    forall (h : Heap) (D : string),
      let stored := jsmap_keys (heap_read h files) in
      (forall p : string, fileExists sys p h = (Normal true, h) <-> In p stored) /\
      (exists b : bool, directoryExists sys D h = (Normal b, h)) /\
      (directoryExists sys D h = (Normal true, h) <->
         exists p rest : string, In p stored /\ p = D +:+ rest) /\
      readDirectory sys "/" h = (Normal stored, h) /\
      (D <> "/" -> readDirectory sys D h = (Normal [], h)).
Proof.
  intros Hsys.
  destruct (createSystem_inv _ _ _ _ Hsys) as (files & -> & _ & ->).
  exists files. split; [apply heap_read_insert_eq|]. split; [|split].
  - intros h f c. eexists. split; [reflexivity|]. apply heap_read_insert_eq.
  - intros ws p. rewrite writes_keys, heap_read_insert_eq.
    unfold jsmap_new. rewrite jsmap_keys_assign_In. simpl. tauto.
  - intros h D stored.
    assert (Hstored : forall p, fileExists (system_of files) p h = (Normal true, h)
                                <-> In p stored).
    { intros p. subst stored. rewrite <- jsmap_has_In. cbn.
      split; [congruence | now intros ->]. }
    split; [exact Hstored|]. split; [eexists; reflexivity|]. split; [|split].
    + split.
      * cbn. intros Hd. injection Hd as Hd.
        apply existsb_exists in Hd as (p & Hin & Hp).
        apply startsWith_app in Hp as [rest Hrest]. now exists p, rest.
      * intros (p & rest & Hp & Hrest). cbn. do 2 f_equal.
        apply existsb_exists. exists p. split; [exact Hp|].
        apply startsWith_app. now exists rest.
    + reflexivity.
    + intros HD. cbn. destruct (String.eqb_spec D "/"); [contradiction | reflexivity].
Qed.

(** C9. On the system that [createSystem] returns, each of
    [createDirectory], [exit], [write] and [getExecutingFilePath] throws,
    whatever its argument and in every state, an [Error] whose message
    is ["Method '<its own name>' is not implemented."], and leaves the
    heap, and so the store, as it was. *)
Theorem unsupported_operations_throw (m : loc) (h0 h1 : Heap) (sys : System) :
  createSystem m h0 = (Normal sys, h1) ->
  forall (h : Heap) (path s : string) (exitCode : option Z),
    createDirectory sys path h
      = (Throw (Error "Method 'createDirectory' is not implemented."), h) /\
    exit sys exitCode h
      = (Throw (Error "Method 'exit' is not implemented."), h) /\
    write sys s h
      = (Throw (Error "Method 'write' is not implemented."), h) /\
    getExecutingFilePath sys h
      = (Throw (Error "Method 'getExecutingFilePath' is not implemented."), h).
Proof.
  intros Hsys h path s exitCode.
  destruct (createSystem_inv _ _ _ _ Hsys) as (files & -> & _ & _).
  repeat split.
Qed.

(** C10. [createSystem(m)] works on a private copy of the map [m]:
    creating the system leaves [m] as it was; no [writeFile] on the
    returned system, in any state, changes [m]; whatever the owner of [m]
    does to [m] afterwards, in any interleaving with [writeFile] calls,
    [fileExists], [readFile], [directoryExists] and [readDirectory] answer
    as if [m] had never been touched; and the copy starts with the
    entries of [m]. *)
Theorem createSystem_private_copy (m : loc) (h0 h1 : Heap) (sys : System) :
  is_Some (h0 !! m) ->
  createSystem m h0 = (Normal sys, h1) ->
  h1 !! m = h0 !! m /\
  (forall (h : Heap) (f c : string), snd (writeFile sys f c h) !! m = h !! m) /\
  (forall es : list Event,
     same_answers sys (run_events sys m es h1)
                      (run_events sys m (List.filter is_CallWriteFile es) h1)) /\
  (jsmap_wf (heap_read h0 m) ->
   forall f : string, readFile sys f h1 = (Normal (jsmap_get f (heap_read h0 m)), h1)).
Proof.
  intros [v Hv] Hsys.
  destruct (createSystem_inv _ _ _ _ Hsys) as (files & -> & Hfresh & ->).
  assert (Hne : files <> m) by congruence.
  repeat split.
  - now rewrite lookup_insert_ne.
  - intros h f c. cbn. now rewrite lookup_insert_ne.
  - apply same_store_same_answers, run_events_private; [exact Hne | reflexivity].
  - apply same_store_same_answers, run_events_private; [exact Hne | reflexivity].
  - apply same_store_same_answers, run_events_private; [exact Hne | reflexivity].
  - apply same_store_same_answers, run_events_private; [exact Hne | reflexivity].
  - intros Hwf f. cbn. rewrite heap_read_insert_eq, jsmap_new_wf by assumption. reflexivity.
Qed.

(** ** The library resolver *)

Lemma files_NoDup : NoDup files.
Proof. apply (bool_decide_unpack _). vm_compute. reflexivity. Qed.

(** The last element that passes a filter splits the list: nothing after
    it passes. *)
Lemma filter_last_split (p : string -> bool) (l : list string) :
  List.filter p l <> [] ->
  exists pre x post,
    l = pre ++ x :: post /\ p x = true /\
    Forall (fun y => p y = false) post /\
    list.last (List.filter p l) = Some x.
Proof.
  induction l as [|a l IH]; simpl; [congruence|]. intros Hne.
  destruct (List.filter p l) as [|b matches] eqn:Hl.
  - destruct (p a) eqn:Ha; [|congruence].
    exists [], a, l. repeat split; try assumption.
    apply Forall_forall. intros y Hy%list_elem_of_In.
    destruct (p y) eqn:Hpy; [|reflexivity].
    assert (Hin : In y (List.filter p l)) by (apply filter_In; now split).
    rewrite Hl in Hin. destruct Hin.
  - destruct IH as (pre & x & post & -> & Hx & Hpost & Hlast); [congruence|].
    exists (a :: pre), x, post. repeat split; try assumption.
    destruct (p a); [|exact Hlast].
    rewrite last_cons, Hlast. reflexivity.
Qed.

Lemma indexOf_from_split (x : string) (pre post : list string) (i : Z) :
  ~ In x pre ->
  indexOf_from x (pre ++ x :: post) i = (i + Z.of_nat (length pre))%Z.
Proof.
  revert i. induction pre as [|y pre IH]; intros i Hout; simpl.
  - rewrite String.eqb_refl. lia.
  - destruct (String.eqb_spec y x) as [->|Hne]; [exfalso; apply Hout; now left|].
    rewrite IH; [lia|]. intros Hin. apply Hout. now right.
Qed.

Lemma array_slice_split {A : Type} (pre post : list A) (x : A) :
  array_slice (pre ++ x :: post) 0 (Z.of_nat (length pre) + 1) = pre ++ [x].
Proof.
  unfold array_slice, JsString.clamp.
  rewrite length_app. simpl length.
  destruct (Z.ltb_spec 0 0); [lia|].
  destruct (Z.ltb_spec (Z.of_nat (length pre) + 1) 0); [lia|].
  rewrite !Z.min_l by lia. rewrite Z.sub_0_r, Z.max_l by lia. simpl skipn.
  replace (pre ++ x :: post) with ((pre ++ [x]) ++ post) by now rewrite <- app_assoc.
  apply take_app_length'. rewrite length_app. simpl. lia.
Qed.



(** ** The hosts and the environment *)

Section HostFacts.
Context {ts : TS}.

Arguments includes : simpl never.

(** On a system of [createSystem], [lsHost.updateFile] returns, and
    this is the state it leaves. *)
Lemma lsHost_updateFile_run (files : loc) (sourceFile : SourceFile) (w : World) :
  lsHost_updateFile (system_of files) sourceFile w =
  (Normal tt,
   {| heap := <[files := jsmap_set (fileName sourceFile) (text sourceFile)
                           (heap_read (heap w) files)]> (heap w);
      sourceFiles := jsmap_set (fileName sourceFile) sourceFile (sourceFiles w);
      fileNames := if includes (fileNames w) (fileName sourceFile)
                   then fileNames w
                   else fileNames w ++ [fileName sourceFile];
      fileVersions := jsmap_set (fileName sourceFile) (pretty (projectVersion w + 1)%N)
                        (fileVersions w);
      projectVersion := (projectVersion w + 1)%N |}).
Proof.
  unfold lsHost_updateFile, vHost_updateFile, bind, modify, get, ret, liftIO. cbn.
  destruct (includes (fileNames w) (fileName sourceFile)); reflexivity.
Qed.

(** On any system, even one whose [writeFile] throws, this is what
    [lsHost.updateFile] does to the variables of the language service
    host. *)
Lemma lsHost_updateFile_host_state (sys : System) (sourceFile : SourceFile) (w : World) :
  let w' := snd (lsHost_updateFile sys sourceFile w) in
  projectVersion w' = (projectVersion w + 1)%N /\
  fileVersions w' = jsmap_set (fileName sourceFile) (pretty (projectVersion w + 1)%N)
                      (fileVersions w) /\
  fileNames w' = if includes (fileNames w) (fileName sourceFile)
                 then fileNames w
                 else fileNames w ++ [fileName sourceFile].
Proof.
  unfold lsHost_updateFile, vHost_updateFile, bind, modify, get, ret, liftIO. cbn.
  destruct (includes (fileNames w) (fileName sourceFile)); cbn;
    unfold set_sourceFiles, set_fileNames, set_fileVersions, set_projectVersion; cbn;
    destruct (writeFile sys (fileName sourceFile) (text sourceFile) (heap w))
      as [[[]|e] h']; cbn; auto.
Qed.

Lemma includes_In (l : list string) (name : string) :
  includes l name = true <-> In name l.
Proof.
  unfold includes. rewrite existsb_exists. split.
  - intros (x & Hin & Hx). apply String.eqb_eq in Hx. now subst.
  - intros Hin. exists name. split; [exact Hin | apply String.eqb_refl].
Qed.

Lemma updateFile_cases (sys : System) (opts : CompilerOptions)
    (f content : string) (s : TextSpan) (w : World) :
  (program_getSourceFile (languageServiceHost sys opts w) f = None /\
   updateFile sys opts f content s w
     = (Throw (TypeError "Cannot read property 'text' of undefined"), w)) \/
  (exists prevSourceFile newText,
     program_getSourceFile (languageServiceHost sys opts w) f = Some prevSourceFile /\
     newText = JsString.slice (text prevSourceFile) 0 (Some (start s)) +:+ content
               +:+ JsString.slice (text prevSourceFile) (start s + span_length s) None /\
     updateFile sys opts f content s w
       = lsHost_updateFile sys
           (updateSourceFile prevSourceFile newText
              {| span := s; newLength := Z.of_nat (String.length content) |}) w).
Proof.
  unfold updateFile, bind, get, throw.
  destruct (program_getSourceFile (languageServiceHost sys opts w) f) as [sf|].
  - right. eauto.
  - left. auto.
Qed.

(** The snapshot the host gives is the stored text unless that text
    is empty. *)
Lemma getScriptSnapshot_run (files : loc) (f : string) (w : World) :
  getScriptSnapshot (system_of files) f w =
  (Normal match jsmap_get f (heap_read (heap w) files) with
          | Some c => if JsString.truthy c then Some c else None
          | None => None
          end, w).
Proof.
  unfold getScriptSnapshot, bind, liftIO, ret. cbn. destruct w as [h sfs fns fvs pv]. cbn.
  destruct (jsmap_get f (heap_read h files)) as [c|]; [|reflexivity].
  destruct (JsString.truthy c); reflexivity.
Qed.

End HostFacts.

Section EnvironmentFacts.
Context {ts : TS} {laws : TSLaws ts}.

Arguments includes : simpl never.

Lemma createVirtualLanguageServiceHost_run
    (sys : System) (rootFiles : list string) (opts : CompilerOptions) (w0 : World) :
  createVirtualLanguageServiceHost sys rootFiles opts w0 =
  (Normal tt, {| heap := heap w0; sourceFiles := []; fileNames := rootFiles;
                 fileVersions := []; projectVersion := 0 |}).
Proof. reflexivity. Qed.

Lemma createVirtualTypeScriptEnvironment_inv
    (sys : System) (rootFiles : list string) (compilerOptions : CompilerOptions)
    (w0 w : World) (env : VirtualTypeScriptEnvironment) :
  createVirtualTypeScriptEnvironment sys rootFiles compilerOptions w0 = (Normal env, w) ->
  env = environment sys (jsmap_assign defaultCompilerOptions compilerOptions) /\
  w = {| heap := heap w0; sourceFiles := []; fileNames := rootFiles;
         fileVersions := []; projectVersion := 0 |}.
Proof.
  unfold createVirtualTypeScriptEnvironment, bind.
  rewrite createVirtualLanguageServiceHost_run. unfold get, throw, ret.
  destruct (getCompilerOptionsDiagnostics _); intros H; [|discriminate].
  injection H as <- <-. split; reflexivity.
Qed.

(** [createFile] on a system of [createSystem]: the state it leaves. *)
Lemma createFile_run (files : loc) (opts : CompilerOptions) (P C : string) (w : World) :
  createFile (system_of files) opts P C w =
  (Normal tt,
   {| heap := <[files := jsmap_set P C (heap_read (heap w) files)]> (heap w);
      sourceFiles :=
        jsmap_set P (createSourceFile P C (jsmap_get "target" opts) false) (sourceFiles w);
      fileNames := if includes (fileNames w) P then fileNames w else fileNames w ++ [P];
      fileVersions := jsmap_set P (pretty (projectVersion w + 1)%N) (fileVersions w);
      projectVersion := (projectVersion w + 1)%N |}).
Proof.
  unfold createFile. rewrite lsHost_updateFile_run.
  now rewrite createSourceFile_fileName, createSourceFile_text.
Qed.

(** After [createFile(P, C)] the store holds [C] under [P], and the
    snapshot of [P] is [C] unless [C] is empty, when there is none. *)
Lemma createFile_readFile_getScriptSnapshot
    (files : loc) (opts : CompilerOptions) (P C : string) (w : World) :
  exists w' : World,
    createFile (system_of files) opts P C w = (Normal tt, w') /\
    readFile (system_of files) P (heap w') = (Normal (Some C), heap w') /\
    getScriptSnapshot (system_of files) P w'
      = (Normal (if JsString.truthy C then Some C else None), w').
Proof.
  eexists. split; [apply createFile_run|]. split.
  - cbn. now rewrite heap_read_insert_eq, jsmap_get_set_eq.
  - rewrite getScriptSnapshot_run. cbn.
    now rewrite heap_read_insert_eq, jsmap_get_set_eq.
Qed.

(** C2, at the contents the code gets wrong. After [createFile(P, "")]
    on an environment over a system of [createSystem], [readFile(P)]
    returns the empty string, and [getScriptSnapshot(P)] returns
    [undefined]: the host reports the empty file as missing. *)
Theorem createFile_empty_getScriptSnapshot_undefined
    (m : loc) (h0 h1 : Heap) (sys : System) (opts : CompilerOptions)
    (P : string) (w : World) :
  createSystem m h0 = (Normal sys, h1) ->
  exists w' : World,
    createFile sys opts P "" w = (Normal tt, w') /\
    readFile sys P (heap w') = (Normal (Some ""), heap w') /\
    getScriptSnapshot sys P w' = (Normal None, w').
Proof.
  intros Hsys. destruct (createSystem_inv _ _ _ _ Hsys) as (files & -> & _ & _).
  apply (createFile_readFile_getScriptSnapshot files opts P "" w).
Qed.

(** What [updateFile] does once the program has a source file for
    the path. *)
Lemma updateFile_run (files : loc) (opts : CompilerOptions)
    (P F : string) (S : TextSpan) (w : World) (prevSourceFile : SourceFile) :
  program_getSourceFile (languageServiceHost (system_of files) opts w) P
    = Some prevSourceFile ->
  let newText :=
    JsString.slice (text prevSourceFile) 0 (Some (start S)) +:+ F
    +:+ JsString.slice (text prevSourceFile) (start S + span_length S) None in
  updateFile (system_of files) opts P F S w =
  (Normal tt,
   {| heap := <[files := jsmap_set P newText (heap_read (heap w) files)]> (heap w);
      sourceFiles :=
        jsmap_set P (updateSourceFile prevSourceFile newText
                       {| span := S; newLength := Z.of_nat (String.length F) |})
                  (sourceFiles w);
      fileNames := if includes (fileNames w) P then fileNames w else fileNames w ++ [P];
      fileVersions := jsmap_set P (pretty (projectVersion w + 1)%N) (fileVersions w);
      projectVersion := (projectVersion w + 1)%N |}).
Proof.
  intros Hprev newText.
  destruct (updateFile_cases (system_of files) opts P F S w)
    as [[Hnone _]|(sf & t & Hsome & Ht & ->)]; [congruence|].
  assert (sf = prevSourceFile) as -> by congruence. subst t. fold newText.
  rewrite lsHost_updateFile_run.
  rewrite updateSourceFile_fileName, updateSourceFile_text.
  now rewrite (program_getSourceFile_fileName _ _ _ Hprev).
Qed.

(** The text of a source file of the program is the text stored under
    its name, and it is not empty. *)
Lemma program_text_is_stored (files : loc) (opts : CompilerOptions)
    (P : string) (w : World) (sf : SourceFile) :
  program_getSourceFile (languageServiceHost (system_of files) opts w) P = Some sf ->
  jsmap_get P (heap_read (heap w) files) = Some (text sf).
Proof.
  intros Hp. apply program_getSourceFile_text in Hp. cbn in Hp.
  unfold answer in Hp. rewrite getScriptSnapshot_run in Hp. cbn in Hp.
  destruct (jsmap_get P (heap_read (heap w) files)) as [c|]; [|discriminate].
  destruct (JsString.truthy c); [congruence | discriminate].
Qed.

End EnvironmentFacts.

Section EnvironmentTheorems.
Context {ts : TS} {laws : TSLaws ts}.

Arguments includes : simpl never.

Lemma In_pushed (l : list string) (P : string) :
  In P (if includes l P then l else l ++ [P]).
Proof.
  destruct (includes l P) eqn:Hinc.
  - now apply includes_In.
  - apply in_or_app. right. now left.
Qed.

(** After [createFile(P, C)] with [C] not empty the program has a
    source file for [P]. *)
Lemma createFile_program_has (files : loc) (opts : CompilerOptions)
    (P C : string) (w : World) :
  JsString.truthy C = true ->
  is_Some (program_getSourceFile
             (languageServiceHost (system_of files) opts
                (snd (createFile (system_of files) opts P C w))) P).
Proof.
  intros HC. rewrite createFile_run. cbn [snd].
  apply (program_getSourceFile_root _ P C).
  - cbn. apply In_pushed.
  - cbn. unfold answer. rewrite getScriptSnapshot_run. cbn.
    now rewrite heap_read_insert_eq, jsmap_get_set_eq, HC.
Qed.

(** Splicing where the program has the file. On an environment over a
    system of [createSystem], let [T] be the content stored for [P], let
    the program of the language service have a source file for [P], and
    let [0 <= S.start <= S.start + S.length <= T.length]. Then
    [updateFile(P, F, S)] returns and leaves the store that
    [createFile(P, T[0:S.start] + F + T[S.start+S.length:])] leaves, in
    which [P] has that text. In particular, from any state,
    [createFile("/a.ts", "let x = 1;")] followed by
    [updateFile("/a.ts", "2", {start: 8, length: 1})] leaves
    ["let x = 2;"] stored for ["/a.ts"]. *)
Theorem updateFile_same_store_as_createFile_of_splice
    (m : loc) (h0 h1 : Heap) (sys : System) (opts : CompilerOptions)
    (P T F : string) (S : TextSpan) (w : World) :
  createSystem m h0 = (Normal sys, h1) ->
  readFile sys P (heap w) = (Normal (Some T), heap w) ->
  is_Some (program_getSourceFile (languageServiceHost sys opts w) P) ->
  (0 <= start S /\ start S <= start S + span_length S /\
   start S + span_length S <= Z.of_nat (String.length T))%Z ->
  let newText :=
    JsString.take (Z.to_nat (start S)) T +:+ F
    +:+ JsString.drop (Z.to_nat (start S + span_length S)) T in
  (exists w1 w2 : World,
     updateFile sys opts P F S w = (Normal tt, w1) /\
     createFile sys opts P newText w = (Normal tt, w2) /\
     heap w1 = heap w2 /\
     readFile sys P (heap w1) = (Normal (Some newText), heap w1)) /\
  (forall w0 : World,
     exists w1 w2 : World,
       createFile sys opts "/a.ts" "let x = 1;" w0 = (Normal tt, w1) /\
       updateFile sys opts "/a.ts" "2" {| start := 8; span_length := 1 |} w1
         = (Normal tt, w2) /\
       readFile sys "/a.ts" (heap w2) = (Normal (Some "let x = 2;"), heap w2)).
Proof.
  intros Hsys Hread [sf Hsf] Hspan newText.
  destruct (createSystem_inv _ _ _ _ Hsys) as (files & -> & _ & _).
  split.
  - pose proof (program_text_is_stored _ _ _ _ _ Hsf) as Hstored.
    cbn in Hread. assert (HT : text sf = T) by congruence.
    exists (snd (updateFile (system_of files) opts P F S w)),
           (snd (createFile (system_of files) opts P newText w)).
    rewrite (updateFile_run _ _ _ _ _ _ _ Hsf), createFile_run. cbn [snd heap].
    rewrite HT, slice_prefix, slice_suffix by lia. fold newText.
    repeat split. cbn. now rewrite heap_read_insert_eq, jsmap_get_set_eq.
  - intros w0.
    destruct (createFile_program_has files opts "/a.ts" "let x = 1;" w0 eq_refl)
      as [sf1 Hsf1].
    pose proof (program_text_is_stored _ _ _ _ _ Hsf1) as Hstored.
    rewrite createFile_run in Hsf1, Hstored. cbn [snd heap] in Hsf1, Hstored.
    rewrite heap_read_insert_eq, jsmap_get_set_eq in Hstored.
    injection Hstored as Htext.
    eexists. eexists. split; [apply createFile_run|].
    split; [apply (updateFile_run _ _ _ _ _ _ _ Hsf1)|].
    rewrite <- Htext. cbn. now rewrite heap_read_insert_eq, jsmap_get_set_eq.
Qed.


End EnvironmentTheorems.

(** ** Versions and file names *)

Section VersionFacts.
Context {ts : TS}.

Arguments includes : simpl never.

(** A call on the environment either throws in the state it started
    in, or returns with the project version one higher. *)
Lemma call_step (files : loc) (opts : CompilerOptions) (c : Call) (w : World) :
  (exists e, call (environment (system_of files) opts) c w = (Throw e, w)) \/
  (exists w', call (environment (system_of files) opts) c w = (Normal tt, w') /\
              projectVersion w' = (projectVersion w + 1)%N).
Proof.
  destruct c as [f content|f content s]; cbn [call environment env_createFile env_updateFile].
  - right. unfold createFile. rewrite lsHost_updateFile_run. eauto.
  - destruct (updateFile_cases (system_of files) opts f content s w)
      as [[_ ->]|(sf & t & _ & _ & ->)]; [left; eauto|].
    right. rewrite lsHost_updateFile_run. eauto.
Qed.

Lemma token_after_NoDup (pv : N) (n : nat) : NoDup (map (token_after pv) (seq 1 n)).
Proof.
  change (NoDup (token_after pv <$> seq 1 n)).
  apply NoDup_fmap_2; [|apply NoDup_seq].
  intros i j Hij. unfold token_after in Hij. apply (inj pretty) in Hij. lia.
Qed.

Lemma observed_versions_tokens (files : loc) (opts : CompilerOptions)
    (cs : list Call) (w : World) :
  let env := environment (system_of files) opts in
  projectVersion (calls env cs w)
    = (projectVersion w + N.of_nat (returned_calls env cs w))%N /\
  observed_versions env cs w
    = map (token_after (projectVersion w)) (seq 1 (returned_calls env cs w)).
Proof.
  cbv zeta. revert w. induction cs as [|c cs IH]; intros w.
  - split; [cbn; lia | reflexivity].
  - cbn [calls observed_versions returned_calls].
    destruct (call_step files opts c w) as [[e ->]|(w' & -> & Hpv)]; cbn [snd].
    + apply IH.
    + destruct (IH w') as (Hcalls & Hobs). split; [rewrite Hcalls; lia|].
      rewrite Hobs. cbn [seq map]. f_equal.
      * unfold token_after. cbn. rewrite Hpv. f_equal.
      * rewrite <- (seq_shift (returned_calls _ cs w') 1), map_map.
        apply map_ext. intros i. unfold token_after. rewrite Hpv. f_equal. lia.
Qed.

Lemma returned_calls_createFile (files : loc) (opts : CompilerOptions)
    (cs : list Call) (w : World) :
  Forall (fun c => is_CreateFile c = true) cs ->
  returned_calls (environment (system_of files) opts) cs w = length cs.
Proof.
  revert w. induction cs as [|c cs IH]; intros w Hcs; [reflexivity|].
  apply Forall_cons in Hcs as [Hc Hcs]. destruct c as [f content|]; [|discriminate].
  cbn [returned_calls call environment env_createFile length].
  unfold createFile. rewrite lsHost_updateFile_run. f_equal. now apply IH.
Qed.

(** C3. On an environment over a system of [createSystem]: a new
    language service host reports project version ["0"]; every
    [lsHost.updateFile] returns with the counter one higher;
    [createFile] is [lsHost.updateFile] on the source file it makes, so
    it returns with the counter one higher; [updateFile] on a path for
    which the program has a source file is [lsHost.updateFile] on the
    updated source file, so it too returns with the counter one higher,
    and on a path for which the program has none it throws in the state
    it started in. Hence, in any sequence of calls, the counter ends at
    its starting value plus the number of calls that returned, it never
    decreases, and the tokens read after the calls that returned are the
    decimal numerals of the numbers that follow the starting value, one
    for each such call, in order and pairwise distinct; and in a
    sequence of [createFile] calls every call returns. *)
Theorem projectVersion_increases_by_one
    (m : loc) (h0 h1 : Heap) (sys : System) (opts : CompilerOptions) :
  createSystem m h0 = (Normal sys, h1) ->
  (forall (rootFiles : list string) (w0 : World),
     exists w, createVirtualLanguageServiceHost sys rootFiles opts w0 = (Normal tt, w) /\
               projectVersion w = 0%N /\ getProjectVersion w = (Normal "0", w)) /\
  (forall (sourceFile : SourceFile) (w : World),
     exists w', lsHost_updateFile sys sourceFile w = (Normal tt, w') /\
                projectVersion w' = (projectVersion w + 1)%N) /\
  (forall (f content : string) (w : World),
     exists w',
       createFile sys opts f content w = (Normal tt, w') /\
       lsHost_updateFile sys
         (createSourceFile f content (jsmap_get "target" opts) false) w = (Normal tt, w') /\
       projectVersion w' = (projectVersion w + 1)%N /\
       getProjectVersion w' = (Normal (pretty (projectVersion w + 1)%N), w')) /\
  (forall (f content : string) (s : TextSpan) (w : World),
     match program_getSourceFile (languageServiceHost sys opts w) f with
     | Some prevSourceFile =>
         let newText :=
           JsString.slice (text prevSourceFile) 0 (Some (start s)) +:+ content
           +:+ JsString.slice (text prevSourceFile) (start s + span_length s) None in
         exists w',
           updateFile sys opts f content s w = (Normal tt, w') /\
           lsHost_updateFile sys
             (updateSourceFile prevSourceFile newText
                {| span := s; newLength := Z.of_nat (String.length content) |}) w
             = (Normal tt, w') /\
           projectVersion w' = (projectVersion w + 1)%N /\
           getProjectVersion w' = (Normal (pretty (projectVersion w + 1)%N), w')
     | None =>
         updateFile sys opts f content s w
           = (Throw (TypeError "Cannot read property 'text' of undefined"), w)
     end) /\
  (forall (cs : list Call) (w : World),
     let env := environment sys opts in
     projectVersion (calls env cs w)
       = (projectVersion w + N.of_nat (returned_calls env cs w))%N /\
     (projectVersion w <= projectVersion (calls env cs w))%N /\
     observed_versions env cs w
       = map (fun i => pretty (projectVersion w + N.of_nat i)%N)
             (seq 1 (returned_calls env cs w)) /\
     NoDup (observed_versions env cs w) /\
     (Forall (fun c => is_CreateFile c = true) cs ->
      returned_calls env cs w = length cs)).
Proof.
  intros Hsys. destruct (createSystem_inv _ _ _ _ Hsys) as (files & -> & _ & _).
  split; [|split; [|split; [|split]]].
  - intros rootFiles w0. eexists. split; [reflexivity|]. split; reflexivity.
  - intros sf w. rewrite lsHost_updateFile_run. eauto.
  - intros f content w. unfold createFile. rewrite lsHost_updateFile_run.
    eexists. repeat split.
  - intros f content s w.
    destruct (updateFile_cases (system_of files) opts f content s w)
      as [[-> ->]|(sf & t & -> & -> & ->)]; [reflexivity|].
    cbv zeta. rewrite lsHost_updateFile_run. eexists. repeat split.
  - intros cs w env.
    destruct (observed_versions_tokens files opts cs w) as (Hcalls & Hobs).
    fold env in Hcalls, Hobs.
    split; [exact Hcalls|]. split; [rewrite Hcalls; lia|]. split; [exact Hobs|].
    split; [rewrite Hobs; apply token_after_NoDup|].
    apply returned_calls_createFile.
Qed.

End VersionFacts.

Section FileVersionFacts.
Context {ts : TS} {laws : TSLaws ts}.

Arguments includes : simpl never.

(** A call on one path leaves the version entry of every other path
    as it was, on any system. *)
Lemma call_fileVersions_other (sys : System) (opts : CompilerOptions)
    (c : Call) (P : string) (w : World) :
  call_fileName c <> P ->
  jsmap_get P (fileVersions (snd (call (environment sys opts) c w)))
    = jsmap_get P (fileVersions w).
Proof.
  intros Hne.
  destruct c as [f content|f content s];
    cbn [call environment env_createFile env_updateFile call_fileName] in *.
  - unfold createFile.
    destruct (lsHost_updateFile_host_state sys
                (createSourceFile f content (jsmap_get "target" opts) false) w)
      as (_ & -> & _).
    rewrite createSourceFile_fileName. now apply jsmap_get_set_ne.
  - destruct (updateFile_cases sys opts f content s w)
      as [[_ ->]|(sf & t & Hsf & _ & ->)]; [reflexivity|].
    destruct (lsHost_updateFile_host_state sys
                (updateSourceFile sf t
                   {| span := s; newLength := Z.of_nat (String.length content) |}) w)
      as (_ & -> & _).
    rewrite updateSourceFile_fileName, (program_getSourceFile_fileName _ _ _ Hsf).
    now apply jsmap_get_set_ne.
Qed.

Lemma calls_fileVersions_other (sys : System) (opts : CompilerOptions)
    (cs : list Call) (P : string) (w : World) :
  (forall c, In c cs -> call_fileName c <> P) ->
  jsmap_get P (fileVersions (calls (environment sys opts) cs w))
    = jsmap_get P (fileVersions w).
Proof.
  revert w. induction cs as [|c cs IH]; intros w Hcs; [reflexivity|].
  cbn [calls]. rewrite IH by (intros c' Hc'; apply Hcs; now right).
  apply call_fileVersions_other, Hcs. now left.
Qed.

(** C5. On an environment that [createVirtualTypeScriptEnvironment]
    returned, over any system: for a path [P] and any sequence of
    [createFile] and [updateFile] calls none of which is on [P],
    [getScriptVersion(P)] returns ["0"] before the calls and after
    them. *)
Theorem getScriptVersion_baseline_for_untouched_path
    (sys : System) (rootFiles : list string) (compilerOptions : CompilerOptions)
    (w0 w : World) (env : VirtualTypeScriptEnvironment)
    (P : string) (cs : list Call) :
  createVirtualTypeScriptEnvironment sys rootFiles compilerOptions w0 = (Normal env, w) ->
  Forall (fun c => call_fileName c <> P) cs ->
  getScriptVersion P w = (Normal "0", w) /\
  getScriptVersion P (calls env cs w) = (Normal "0", calls env cs w).
Proof.
  intros Henv Hcs. rewrite Forall_forall in Hcs.
  assert (Hcs' : forall c, In c cs -> call_fileName c <> P)
    by (intros c Hc; now apply Hcs, list_elem_of_In).
  destruct (createVirtualTypeScriptEnvironment_inv _ _ _ _ _ _ Henv) as [-> Hw].
  assert (Hbase : jsmap_get P (fileVersions w) = None) by now rewrite Hw.
  split.
  - unfold getScriptVersion, bind, get, ret. now rewrite Hbase.
  - unfold getScriptVersion, bind, get, ret.
    now rewrite calls_fileVersions_other, Hbase.
Qed.

End FileVersionFacts.

Section FileNameFacts.
Context {ts : TS}.

Arguments includes : simpl never.

Lemma pushed_NoDup (l : list string) (name : string) :
  NoDup l -> NoDup (if includes l name then l else l ++ [name]).
Proof.
  intros Hl. destruct (includes l name) eqn:Hinc; [exact Hl|].
  apply NoDup_app. split; [exact Hl|]. split; [|apply NoDup_singleton].
  intros x Hx Hx'. apply list_elem_of_singleton in Hx'. subst x.
  apply list_elem_of_In, includes_In in Hx. congruence.
Qed.

Lemma pushed_keeps (l : list string) (name p : string) :
  In p l -> In p (if includes l name then l else l ++ [name]).
Proof.
  intros Hp. destruct (includes l name); [exact Hp|].
  apply in_or_app. now left.
Qed.

Lemma host_updates_fileNames (sys : System) (sfs : list SourceFile) (w : World) :
  NoDup (fileNames w) ->
  NoDup (fileNames (host_updates sys sfs w)) /\
  (forall p, In p (fileNames w) -> In p (fileNames (host_updates sys sfs w))) /\
  (forall sf, In sf sfs -> In (fileName sf) (fileNames (host_updates sys sfs w))).
Proof.
  unfold host_updates. revert w. induction sfs as [|sf sfs IH]; intros w Hw; cbn [fold_left].
  - repeat split; [exact Hw | auto | intros sf []].
  - destruct (lsHost_updateFile_host_state sys sf w) as (_ & _ & Hnames).
    destruct (IH (snd (lsHost_updateFile sys sf w))) as (Hnd & Hmono & Hin).
    { rewrite Hnames. now apply pushed_NoDup. }
    repeat split; [exact Hnd | |].
    + intros p Hp. apply Hmono. rewrite Hnames. now apply pushed_keeps.
    + intros sf' [<-|Hsf']; [|now apply Hin].
      apply Hmono. rewrite Hnames. apply In_pushed.
Qed.

(** C6, amended. For a language service host made from a list
    [rootFiles] without duplicates, over any system: after any sequence
    of [updateFile] calls on the host, [fileNames], which
    [getScriptFileNames] returns, has no duplicates and holds every
    root file and the file name of every source file passed to
    [updateFile]; and in every state, one [updateFile] keeps every
    file name that is in the list and leaves the name of its source
    file in it. *)
Theorem fileNames_NoDup_and_growing
    (sys : System) (rootFiles : list string) (opts : CompilerOptions)
    (w0 : World) (sfs : list SourceFile) :
  NoDup rootFiles ->
  let w := host_updates sys sfs
             (snd (createVirtualLanguageServiceHost sys rootFiles opts w0)) in
  getScriptFileNames w = (Normal (fileNames w), w) /\
  NoDup (fileNames w) /\
  (forall p, In p rootFiles -> In p (fileNames w)) /\
  (forall sf, In sf sfs -> In (fileName sf) (fileNames w)) /\
  (forall (w1 : World) (sf : SourceFile),
     let w2 := snd (lsHost_updateFile sys sf w1) in
     (forall p, In p (fileNames w1) -> In p (fileNames w2)) /\
     In (fileName sf) (fileNames w2)).
Proof.
  intros Hroots w.
  destruct (host_updates_fileNames sys sfs
              (snd (createVirtualLanguageServiceHost sys rootFiles opts w0)))
    as (Hnd & Hmono & Hin); [exact Hroots|].
  repeat split; try assumption.
  - intros p Hp. destruct (lsHost_updateFile_host_state sys sf w1) as (_ & _ & ->).
    now apply pushed_keeps.
  - destruct (lsHost_updateFile_host_state sys sf w1) as (_ & _ & ->).
    apply In_pushed.
Qed.

End FileNameFacts.

(** * Further properties of the code *)

(** ** The store of the system *)

Lemma jsmap_keys_set {V : Type} (k : string) (v : V) (m : JsMap V) :
  jsmap_keys (jsmap_set k v m)
  = if jsmap_has k m then jsmap_keys m else jsmap_keys m ++ [k].
Proof.
  unfold jsmap_has. induction m as [|[k' v'] m IH]; simpl; [reflexivity|].
  destruct (String.eqb_spec k k') as [->|Hne]; simpl; [reflexivity|].
  rewrite IH. now destruct (jsmap_get k m).
Qed.

Lemma jsmap_set_set {V : Type} (k : string) (v1 v2 : V) (m : JsMap V) :
  jsmap_set k v2 (jsmap_set k v1 m) = jsmap_set k v2 m.
Proof.
  induction m as [|[k' v'] m IH]; simpl.
  - now rewrite String.eqb_refl.
  - destruct (String.eqb_spec k k') as [->|Hne]; simpl.
    + now rewrite String.eqb_refl.
    + destruct (String.eqb_spec k k'); [contradiction | now rewrite IH].
Qed.

(** X1. [writeFile(f, c)] on a system of [createSystem] returns; after
    it [readFile(f)] is [c] and [fileExists(f)] is [true]; every other
    path reads and exists as before; and no other map of the heap is
    changed. *)
Theorem writeFile_then_readFile (files : loc) (h : Heap) (f c : string) :
  let sys := system_of files in
  let h' := snd (writeFile sys f c h) in
  writeFile sys f c h = (Normal tt, h') /\
  readFile sys f h' = (Normal (Some c), h') /\
  fileExists sys f h' = (Normal true, h') /\
  (forall g : string, g <> f ->
     readFile sys g h' = (fst (readFile sys g h), h') /\
     fileExists sys g h' = (fst (fileExists sys g h), h')) /\
  (forall l : loc, l <> files -> h' !! l = h !! l).
Proof.
  cbn. repeat split.
  - now rewrite heap_read_insert_eq, jsmap_get_set_eq.
  - unfold jsmap_has. now rewrite heap_read_insert_eq, jsmap_get_set_eq.
  - rewrite heap_read_insert_eq, jsmap_get_set_ne by congruence. reflexivity.
  - unfold jsmap_has.
    rewrite heap_read_insert_eq, jsmap_get_set_ne by congruence. reflexivity.
  - intros l Hl. now rewrite lookup_insert_ne.
Qed.

(** X2. [writeFile] and the listing of the store: writing a path that
    exists leaves [readDirectory("/")] as it was, order included;
    writing a new path puts it at the end of the listing; and writing a
    path twice leaves the heap that the second write alone leaves. *)
Theorem writeFile_readDirectory_order (files : loc) (h : Heap) (f c c' : string) :
  let sys := system_of files in
  let h' := snd (writeFile sys f c h) in
  (exists l : list string,
     readDirectory sys "/" h = (Normal l, h) /\
     ((fileExists sys f h = (Normal true, h) /\
       readDirectory sys "/" h' = (Normal l, h')) \/
      (fileExists sys f h = (Normal false, h) /\
       readDirectory sys "/" h' = (Normal (l ++ [f]), h')))) /\
  snd (writeFile sys f c' h') = snd (writeFile sys f c' h).
Proof.
  cbn. split.
  - exists (jsmap_keys (heap_read h files)). split; [reflexivity|].
    rewrite heap_read_insert_eq, jsmap_keys_set.
    destruct (jsmap_has f (heap_read h files)); [left | right]; split; reflexivity.
  - now rewrite heap_read_insert_eq, jsmap_set_set, insert_insert_eq.
Qed.

Lemma startsWith_refl (s : string) : JsString.startsWith s s = true.
Proof.
  apply startsWith_app. exists "".
  induction s as [|a s IH]; [reflexivity|].
  change (String a s = String a (s +:+ "")). now f_equal.
Qed.

Lemma string_app_assoc (a b c : string) : (a +:+ b) +:+ c = a +:+ (b +:+ c).
Proof.
  induction a as [|x a IH]; [reflexivity|].
  change (String x ((a +:+ b) +:+ c) = String x (a +:+ (b +:+ c))). now f_equal.
Qed.

(** X3. Edges of [directoryExists] on a system of [createSystem]: in an
    empty store no directory exists, not even ["/"]; every stored path
    is itself an existing directory, and so is the empty string as soon
    as the store holds a path; and every beginning of an existing
    directory is an existing directory. *)
Theorem directoryExists_edge_cases (files : loc) (h : Heap) :
  let sys := system_of files in
  (readDirectory sys "/" h = (Normal [], h) ->
   forall D : string, directoryExists sys D h = (Normal false, h)) /\
  (forall p : string,
     fileExists sys p h = (Normal true, h) ->
     directoryExists sys p h = (Normal true, h) /\
     directoryExists sys "" h = (Normal true, h)) /\
  (forall D rest : string,
     directoryExists sys (D +:+ rest) h = (Normal true, h) ->
     directoryExists sys D h = (Normal true, h)).
Proof.
  cbn. repeat split.
  - intros Hempty D. injection Hempty as Hempty. now rewrite Hempty.
  - do 2 f_equal. apply existsb_exists. exists p. split; [|apply startsWith_refl].
    apply jsmap_has_In. congruence.
  - do 2 f_equal. apply existsb_exists. exists p. split; [|reflexivity].
    apply jsmap_has_In. congruence.
  - intros D rest Hd. injection Hd as Hd. do 2 f_equal.
    apply existsb_exists in Hd as (p & Hin & Hp). apply existsb_exists.
    exists p. split; [exact Hin|].
    apply startsWith_app in Hp as [rest' ->]. apply startsWith_app.
    exists (rest +:+ rest'). apply string_app_assoc.
Qed.

(** X4. Two systems made from the same map are independent: a
    [writeFile] on either is never seen by [fileExists], [readFile],
    [directoryExists] or [readDirectory] of the other. *)
Theorem createSystem_twice_independent
    (m : loc) (h0 h1 h2 : Heap) (sys1 sys2 : System) :
  createSystem m h0 = (Normal sys1, h1) ->
  createSystem m h1 = (Normal sys2, h2) ->
  forall (h : Heap) (f c : string),
    same_answers sys2 (snd (writeFile sys1 f c h)) h /\
    same_answers sys1 (snd (writeFile sys2 f c h)) h.
Proof.
  intros H1 H2 h f c.
  destruct (createSystem_inv _ _ _ _ H1) as (files1 & -> & _ & ->).
  destruct (createSystem_inv _ _ _ _ H2) as (files2 & -> & Hfresh & _).
  assert (Hne : files1 <> files2).
  { intros <-. rewrite lookup_insert_eq in Hfresh. discriminate. }
  split; apply same_store_same_answers; cbn;
    now rewrite heap_read_insert_ne by congruence.
Qed.

(** ** The source file cache of the compiler host *)

Lemma jsmap_has_set {V : Type} (k k' : string) (v : V) (m : JsMap V) :
  jsmap_has k (jsmap_set k' v m) = String.eqb k' k || jsmap_has k m.
Proof.
  unfold jsmap_has. destruct (String.eqb_spec k' k) as [->|Hne].
  - now rewrite jsmap_get_set_eq.
  - now rewrite jsmap_get_set_ne.
Qed.

Section CompilerHostFacts.
Context {ts : TS}.

Arguments defaultCompilerOptions : simpl never.
Variable createSourceFile_undefined :
  string -> option OptionValue -> bool -> Completion SourceFile.

Lemma vHost_updateFile_run (files : loc) (sourceFile : SourceFile) (w : World) :
  vHost_updateFile (system_of files) sourceFile w =
  (Normal (jsmap_has (fileName sourceFile) (sourceFiles w)),
   {| heap := <[files := jsmap_set (fileName sourceFile) (text sourceFile)
                           (heap_read (heap w) files)]> (heap w);
      sourceFiles := jsmap_set (fileName sourceFile) sourceFile (sourceFiles w);
      fileNames := fileNames w;
      fileVersions := fileVersions w;
      projectVersion := projectVersion w |}).
Proof. reflexivity. Qed.

Lemma vHost_updates_has (files : loc) (sfs : list SourceFile) (k : string) (w : World) :
  jsmap_has k (sourceFiles (vHost_updates (system_of files) sfs w))
  = jsmap_has k (sourceFiles w)
    || existsb (fun sf' => String.eqb (fileName sf') k) sfs.
Proof.
  unfold vHost_updates. revert w.
  induction sfs as [|sf sfs IH]; intros w; cbn [fold_left existsb].
  - now rewrite orb_false_r.
  - rewrite IH, vHost_updateFile_run. cbn [snd sourceFiles].
    rewrite jsmap_has_set.
    destruct (String.eqb (fileName sf) k), (jsmap_has k (sourceFiles w)); reflexivity.
Qed.

(** The default target is ES2015, whatever [ts.getDefaultCompilerOptions]
    holds. *)
Lemma defaultCompilerOptions_target :
  jsmap_get "target" defaultCompilerOptions = Some (ONumber ScriptTarget_ES2015).
Proof.
  unfold defaultCompilerOptions, jsmap_assign. cbn [fold_left fst snd].
  repeat (rewrite jsmap_get_set_ne by discriminate).
  apply jsmap_get_set_eq.
Qed.

(** X5. On a new compiler host over a system of [createSystem], after
    [updateFile] was called with the source files [sfs] in turn,
    [updateFile(sf)] returns [true] exactly when one of [sfs] has the
    file name of [sf]: [false] for the first update of a name, [true]
    for every later one. *)
Theorem vHost_updateFile_alreadyExists
    (files : loc) (opts : CompilerOptions) (sfs : list SourceFile)
    (sf : SourceFile) (w0 : World) :
  let sys := system_of files in
  let w := vHost_updates sys sfs (snd (createVirtualCompilerHost sys opts w0)) in
  fst (vHost_updateFile sys sf w)
  = Normal (existsb (fun sf' => String.eqb (fileName sf') (fileName sf)) sfs).
Proof.
  cbv zeta. rewrite vHost_updateFile_run. cbn [fst]. f_equal.
  now rewrite vHost_updates_has.
Qed.

(** X6. After [updateFile(sf)] on the compiler host over a system of
    [createSystem], the store holds the text of [sf] under its file
    name, and [getSourceFile] of that name returns [sf] itself and
    changes nothing. *)
Theorem getSourceFile_after_updateFile
    (files : loc) (opts : CompilerOptions) (sf : SourceFile) (w : World) :
  let sys := system_of files in
  let w1 := snd (vHost_updateFile sys sf w) in
  readFile sys (fileName sf) (heap w1) = (Normal (Some (text sf)), heap w1) /\
  getSourceFile createSourceFile_undefined sys opts (fileName sf) w1 = (Normal sf, w1).
Proof.
  cbv zeta. rewrite vHost_updateFile_run. cbn [snd]. split.
  - cbn. now rewrite heap_read_insert_eq, jsmap_get_set_eq.
  - unfold getSourceFile, bind, get, ret. cbn [sourceFiles].
    now rewrite jsmap_get_set_eq.
Qed.

(** X7. [getSourceFile(f)] for a name that is not cached, on a file
    that the store holds with text [c]: it returns
    [ts.createSourceFile(f, c, target, false)], where [target] is
    [compilerOptions.target], or ES2015 when that is missing or 0; the
    store is as before; and the next [getSourceFile(f)] returns the same
    source file from the cache and changes nothing. *)
Theorem getSourceFile_parses_stored_text_once
    {laws : TSLaws ts} (files : loc) (opts : CompilerOptions)
    (f c : string) (w : World) :
  let sys := system_of files in
  let target := js_or (jsmap_get "target" opts) (Some (ONumber ScriptTarget_ES2015)) in
  let sf := createSourceFile f c target false in
  jsmap_get f (sourceFiles w) = None ->
  readFile sys f (heap w) = (Normal (Some c), heap w) ->
  exists w1 : World,
    getSourceFile createSourceFile_undefined sys opts f w = (Normal sf, w1) /\
    text sf = c /\
    heap w1 = heap w /\
    getSourceFile createSourceFile_undefined sys opts f w1 = (Normal sf, w1).
Proof.
  intros sys target sf Hmiss Hread. cbn in Hread. injection Hread as Hread.
  eexists. split; [|split; [apply createSourceFile_text|split]].
  - unfold getSourceFile, bind, get, liftIO, save, modify, ret. rewrite Hmiss. cbn.
    rewrite Hread, defaultCompilerOptions_target. reflexivity.
  - reflexivity.
  - unfold getSourceFile, bind, get, ret. cbn [sourceFiles set_sourceFiles].
    rewrite createSourceFile_fileName, jsmap_get_set_eq. reflexivity.
Qed.

(** X8. The cache is keyed by name only: once a source file is cached
    for [f], a [sys.writeFile(f, c')] that bypasses the host changes what
    [readFile(f)] returns and not what [getSourceFile(f)] returns. *)
Theorem getSourceFile_ignores_writeFile
    (files : loc) (opts : CompilerOptions) (f c' : string) (sf : SourceFile) (w : World) :
  let sys := system_of files in
  let w' := snd (liftIO (writeFile sys f c') w) in
  jsmap_get f (sourceFiles w) = Some sf ->
  readFile sys f (heap w') = (Normal (Some c'), heap w') /\
  getSourceFile createSourceFile_undefined sys opts f w' = (Normal sf, w').
Proof.
  intros sys w' Hhit. split.
  - cbn. now rewrite heap_read_insert_eq, jsmap_get_set_eq.
  - unfold getSourceFile, bind, get, ret. cbn. now rewrite Hhit.
Qed.

End CompilerHostFacts.

(** ** Version tokens and the order of the file names *)

Lemma pretty_N_go_truthy (x : N) (s : string) :
  JsString.truthy s = true -> JsString.truthy (pretty_N_go x s) = true.
Proof.
  revert s. induction (N.lt_wf_0 x) as [x _ IH]; intros s Hs.
  destruct (decide (0 < x)%N) as [Hx|Hx].
  - rewrite pretty_N_go_step by exact Hx. apply IH; [|reflexivity].
    apply N.div_lt; lia.
  - assert (x = 0%N) as -> by lia. now rewrite pretty_N_go_0.
Qed.

(** A version token is never the empty string. *)
Lemma pretty_N_truthy (n : N) : JsString.truthy (pretty n) = true.
Proof.
  unfold pretty, pretty_N. destruct (decide (n = 0%N)) as [->|Hn]; [reflexivity|].
  rewrite pretty_N_go_step by lia. now apply pretty_N_go_truthy.
Qed.

Section TokenFacts.
Context {ts : TS}.

Arguments includes : simpl never.

Lemma getScriptVersion_run (f : string) (w : World) :
  getScriptVersion f w =
  (Normal match jsmap_get f (fileVersions w) with
          | Some v => if JsString.truthy v then v else "0"
          | None => "0"
          end, w).
Proof.
  unfold getScriptVersion, bind, get, ret.
  destruct (jsmap_get f (fileVersions w)) as [v|]; [|reflexivity].
  now destruct (JsString.truthy v).
Qed.

Lemma host_updates_snoc (sys : System) (sfs : list SourceFile) (sf : SourceFile) (w : World) :
  host_updates sys (sfs ++ [sf]) w = snd (lsHost_updateFile sys sf (host_updates sys sfs w)).
Proof. unfold host_updates. now rewrite fold_left_app. Qed.

Lemma host_updates_fileVersions (sys : System) (sfs : list SourceFile) (w : World) :
  fileVersions w = [] -> projectVersion w = 0%N ->
  let w' := host_updates sys sfs w in
  projectVersion w' = N.of_nat (length sfs) /\
  (forall f, jsmap_get f (fileVersions w') = None <-> updated sfs f = false) /\
  (forall f v, jsmap_get f (fileVersions w') = Some v ->
     exists n, v = pretty n /\ (1 <= n <= projectVersion w')%N) /\
  (forall f g v, jsmap_get f (fileVersions w') = Some v ->
     jsmap_get g (fileVersions w') = Some v -> f = g).
Proof.
  intros Hfv Hpv. cbv zeta. induction sfs as [|sf sfs IH] using rev_ind.
  - cbn. rewrite Hfv, Hpv. split; [reflexivity|]. split; [|split].
    + intros f. split; reflexivity.
    + intros f v H. discriminate.
    + intros f g v H. discriminate.
  - destruct IH as (HA & HB & HC & HD). rewrite host_updates_snoc.
    destruct (lsHost_updateFile_host_state sys sf (host_updates sys sfs w))
      as (Hpv' & Hfv' & _).
    rewrite Hpv', Hfv'. clear Hpv' Hfv'.
    set (w1 := host_updates sys sfs w) in *.
    split; [|split; [|split]].
    + rewrite length_app. cbn. lia.
    + intros f. unfold updated. rewrite existsb_app. cbn [existsb]. rewrite orb_false_r.
      destruct (String.eqb_spec (fileName sf) f) as [<-|Hne].
      * rewrite jsmap_get_set_eq, orb_true_r. split; discriminate.
      * rewrite jsmap_get_set_ne, orb_false_r by exact Hne. apply HB.
    + intros f v H. destruct (String.eqb_spec (fileName sf) f) as [<-|Hne].
      * rewrite jsmap_get_set_eq in H. injection H as <-.
        exists (projectVersion w1 + 1)%N. split; [reflexivity | lia].
      * rewrite jsmap_get_set_ne in H by exact Hne.
        destruct (HC _ _ H) as (n & -> & Hn). exists n. split; [reflexivity | lia].
    + intros f g v Hf Hg.
      destruct (String.eqb_spec (fileName sf) f) as [<-|Hnf];
        destruct (String.eqb_spec (fileName sf) g) as [<-|Hng]; [reflexivity | | |].
      * rewrite jsmap_get_set_eq in Hf. injection Hf as <-.
        rewrite jsmap_get_set_ne in Hg by exact Hng.
        destruct (HC _ _ Hg) as (n & Hn & Hle). apply (inj pretty) in Hn. lia.
      * rewrite jsmap_get_set_eq in Hg. injection Hg as <-.
        rewrite jsmap_get_set_ne in Hf by exact Hnf.
        destruct (HC _ _ Hf) as (n & Hn & Hle). apply (inj pretty) in Hn. lia.
      * rewrite jsmap_get_set_ne in Hf, Hg by assumption. now apply (HD f g v).
Qed.

(** X9. On any system, after [lsHost.updateFile(sf)] the project
    version token and the version token of the file name of [sf] are the
    same, the numeral of the old counter plus one, and it is not the
    baseline ["0"]. *)
Theorem lsHost_updateFile_stamps_projectVersion
    (sys : System) (sf : SourceFile) (w : World) :
  let w' := snd (lsHost_updateFile sys sf w) in
  let token := pretty (projectVersion w + 1)%N in
  getProjectVersion w' = (Normal token, w') /\
  getScriptVersion (fileName sf) w' = (Normal token, w') /\
  token <> "0".
Proof.
  cbv zeta. destruct (lsHost_updateFile_host_state sys sf w) as (Hpv & Hfv & _).
  repeat split.
  - unfold getProjectVersion, bind, get, ret. now rewrite Hpv.
  - rewrite getScriptVersion_run, Hfv, jsmap_get_set_eq, pretty_N_truthy. reflexivity.
  - change "0" with (pretty 0%N). intros H. apply (inj pretty) in H. lia.
Qed.

(** X10. On a new language service host over any system, after
    [updateFile] was called with [sfs] in turn: the project version is
    the number of calls; a file name that was never passed reports
    ["0"]; one that was passed reports the numeral of a number between 1
    and the project version, never ["0"]; and two different file names
    that were passed report different tokens. *)
Theorem file_version_tokens
    (sys : System) (rootFiles : list string) (opts : CompilerOptions)
    (w0 : World) (sfs : list SourceFile) :
  let w := host_updates sys sfs
             (snd (createVirtualLanguageServiceHost sys rootFiles opts w0)) in
  let was_updated f := existsb (fun sf => String.eqb (fileName sf) f) sfs in
  projectVersion w = N.of_nat (length sfs) /\
  (forall f, was_updated f = false -> getScriptVersion f w = (Normal "0", w)) /\
  (forall f, was_updated f = true ->
     exists n : N, (1 <= n <= projectVersion w)%N /\
       getScriptVersion f w = (Normal (pretty n), w) /\ pretty n <> "0") /\
  (forall f g, f <> g -> was_updated f = true -> was_updated g = true ->
     fst (getScriptVersion f w) <> fst (getScriptVersion g w)).
Proof.
  cbv zeta.
  destruct (host_updates_fileVersions sys sfs
              (snd (createVirtualLanguageServiceHost sys rootFiles opts w0))
              eq_refl eq_refl) as (HA & HB & HC & HD).
  set (w := host_updates sys sfs _) in *. fold (updated sfs) in *.
  assert (Hsome : forall f, updated sfs f = true ->
            exists n, jsmap_get f (fileVersions w) = Some (pretty n)
                      /\ (1 <= n <= projectVersion w)%N).
  { intros f Hf. destruct (jsmap_get f (fileVersions w)) as [v|] eqn:Hv.
    - destruct (HC _ _ Hv) as (n & -> & Hn). eauto.
    - apply HB in Hv. congruence. }
  repeat split.
  - exact HA.
  - intros f Hf. apply HB in Hf. now rewrite getScriptVersion_run, Hf.
  - intros f Hf. destruct (Hsome f Hf) as (n & Hv & Hn). exists n.
    split; [exact Hn|]. split.
    + now rewrite getScriptVersion_run, Hv, pretty_N_truthy.
    + change "0" with (pretty 0%N). intros H. apply (inj pretty) in H. lia.
  - intros f g Hne Hf Hg.
    destruct (Hsome f Hf) as (n & Hvf & _). destruct (Hsome g Hg) as (n' & Hvg & _).
    rewrite !getScriptVersion_run, Hvf, Hvg, !pretty_N_truthy. cbn [fst].
    intros [= Heq]. rewrite <- Heq in Hvg. now apply Hne, (HD f g (pretty n)).
Qed.

(** X11. The list of file names only grows at its end: on any system,
    after [updateFile] was called with [sfs] in turn, the list is the
    list as it was, in its order, followed by file names of [sfs], at
    most one for each call. *)
Theorem fileNames_append_only (sys : System) (sfs : list SourceFile) (w : World) :
  exists rest : list string,
    fileNames (host_updates sys sfs w) = fileNames w ++ rest /\
    Forall (fun p => exists sf, In sf sfs /\ fileName sf = p) rest /\
    length rest <= length sfs.
Proof.
  unfold host_updates. revert w.
  induction sfs as [|sf sfs IH]; intros w; cbn [fold_left].
  - exists []. rewrite app_nil_r. repeat split; [constructor | reflexivity].
  - destruct (IH (snd (lsHost_updateFile sys sf w))) as (rest & Hrest & Hall & Hlen).
    destruct (lsHost_updateFile_host_state sys sf w) as (_ & _ & Hnames).
    rewrite Hrest, Hnames.
    assert (Hall' : Forall (fun p => exists sf0, In sf0 (sf :: sfs) /\ fileName sf0 = p) rest).
    { eapply Forall_impl; [exact Hall|]. intros p (sf0 & Hin & Hp).
      exists sf0. split; [now right | exact Hp]. }
    destruct (includes (fileNames w) (fileName sf)).
    + exists rest. repeat split; [exact Hall' | cbn; lia].
    + exists (fileName sf :: rest). rewrite <- app_assoc. repeat split.
      * constructor; [|exact Hall']. exists sf. split; [now left | reflexivity].
      * cbn. lia.
Qed.

End TokenFacts.

(** ** Compiler options *)

Lemma jsmap_get_assign {V : Type} (k : string) (base entries : JsMap V) :
  jsmap_wf entries ->
  jsmap_get k (jsmap_assign base entries)
  = match jsmap_get k entries with
    | Some v => Some v
    | None => jsmap_get k base
    end.
Proof.
  unfold jsmap_assign, jsmap_wf, jsmap_keys. revert base.
  induction entries as [|[k0 v0] entries IH]; intros base Hwf; [reflexivity|].
  cbn [fold_left fst snd map] in *. apply NoDup_cons in Hwf as [Hout Hwf].
  rewrite IH by exact Hwf. cbn [jsmap_get].
  destruct (String.eqb_spec k k0) as [->|Hne].
  - assert (Hnone : jsmap_get k0 entries = None).
    { apply jsmap_get_None. intros Hin. now apply Hout, list_elem_of_In. }
    now rewrite Hnone, jsmap_get_set_eq.
  - destruct (jsmap_get k entries); [reflexivity|].
    apply jsmap_get_set_ne. congruence.
Qed.

(** X12. The options an environment works with, [{...defaults,
    ...compilerOptions}]: an option that the caller gives has the
    caller's value, any other has its default; and among the defaults
    [target] is ES2015 and [strict] is [true], whatever
    [ts.getDefaultCompilerOptions()] says, while an option that the file
    does not set keeps the value of [ts.getDefaultCompilerOptions()]. *)
Theorem mergedCompilerOptions_precedence {ts : TS} (compilerOptions : CompilerOptions) :
  jsmap_wf compilerOptions ->
  let mergedCompilerOptions := jsmap_assign defaultCompilerOptions compilerOptions in
  (forall k v, jsmap_get k compilerOptions = Some v ->
     jsmap_get k mergedCompilerOptions = Some v) /\
  (forall k, jsmap_get k compilerOptions = None ->
     jsmap_get k mergedCompilerOptions = jsmap_get k defaultCompilerOptions) /\
  jsmap_get "target" defaultCompilerOptions = Some (ONumber ScriptTarget_ES2015) /\
  jsmap_get "strict" defaultCompilerOptions = Some (OBool true) /\
  (forall k,
     ~ In k ["jsx"; "strict"; "target"; "esModuleInterop"; "module";
             "suppressOutputPathCheck"; "skipLibCheck"; "skipDefaultLibCheck";
             "moduleResolution"] ->
     jsmap_get k defaultCompilerOptions = jsmap_get k getDefaultCompilerOptions).
Proof.
  intros Hwf merged. subst merged. split; [|split; [|split; [|split]]].
  - intros k v Hk. now rewrite jsmap_get_assign, Hk.
  - intros k Hk. now rewrite jsmap_get_assign, Hk.
  - apply defaultCompilerOptions_target.
  - unfold defaultCompilerOptions, jsmap_assign. cbn [fold_left fst snd].
    repeat (rewrite jsmap_get_set_ne by discriminate).
    rewrite jsmap_get_set_eq. reflexivity.
  - intros k Hk. unfold defaultCompilerOptions, jsmap_assign. cbn [fold_left fst snd].
    repeat (rewrite jsmap_get_set_ne by (intros <-; apply Hk; cbn; tauto)).
    reflexivity.
Qed.

(** ** Calls on the environment, one after the other *)

Section CallFacts.
Context {ts : TS} {laws : TSLaws ts}.

Arguments includes : simpl never.

Lemma readFile_run (files : loc) (f : string) (h : Heap) :
  readFile (system_of files) f h = (Normal (jsmap_get f (heap_read h files)), h).
Proof. reflexivity. Qed.

(** A call on the environment throws in the state it started in, or is
    [lsHost.updateFile] on a source file with the file name of the call. *)
Lemma call_cases (sys : System) (opts : CompilerOptions) (c : Call) (w : World) :
  call (environment sys opts) c w
    = (Throw (TypeError "Cannot read property 'text' of undefined"), w) \/
  exists sf, fileName sf = call_fileName c /\
             call (environment sys opts) c w = lsHost_updateFile sys sf w.
Proof.
  destruct c as [f content|f content s];
    cbn [call environment env_createFile env_updateFile call_fileName].
  - right. eexists. split; [|reflexivity]. apply createSourceFile_fileName.
  - destruct (updateFile_cases sys opts f content s w)
      as [[_ ->]|(sf & t & Hsf & _ & ->)]; [now left|].
    right. eexists. split; [|reflexivity].
    rewrite updateSourceFile_fileName. now apply program_getSourceFile_fileName in Hsf.
Qed.

(** The text of a source file of the program is never empty. *)
Lemma program_text_truthy (files : loc) (opts : CompilerOptions)
    (P : string) (w : World) (sf : SourceFile) :
  program_getSourceFile (languageServiceHost (system_of files) opts w) P = Some sf ->
  JsString.truthy (text sf) = true.
Proof.
  intros Hp. apply program_getSourceFile_text in Hp. cbn in Hp.
  unfold answer in Hp. rewrite getScriptSnapshot_run in Hp. cbn in Hp.
  destruct (jsmap_get P (heap_read (heap w) files)) as [c|]; [|discriminate].
  destruct (JsString.truthy c) eqn:Hc; [|discriminate].
  injection Hp as <-. exact Hc.
Qed.

(** X13. A [createFile] or [updateFile] on one path, on an environment
    over a system of [createSystem], leaves every other path as it was:
    its stored text, its snapshot, its cached source file and its
    version token. *)
Theorem call_leaves_other_paths
    (files : loc) (opts : CompilerOptions) (c : Call) (Q : string) (w : World) :
  let sys := system_of files in
  let w' := snd (call (environment sys opts) c w) in
  call_fileName c <> Q ->
  readFile sys Q (heap w') = (fst (readFile sys Q (heap w)), heap w') /\
  fst (getScriptSnapshot sys Q w') = fst (getScriptSnapshot sys Q w) /\
  jsmap_get Q (sourceFiles w') = jsmap_get Q (sourceFiles w) /\
  fst (getScriptVersion Q w') = fst (getScriptVersion Q w).
Proof.
  intros sys w' Hne. subst w'.
  destruct (call_cases sys opts c w) as [->|(sf & Hname & ->)].
  - repeat split.
  - subst sys. rewrite lsHost_updateFile_run. cbn [snd]. rewrite Hname.
    rewrite !getScriptSnapshot_run, !getScriptVersion_run. cbn.
    rewrite heap_read_insert_eq, !jsmap_get_set_ne by exact Hne.
    repeat split.
Qed.

(** X14. Two updates in a row. When the program has a source file for
    [P] with text [T], [S1] is within [T], the text [T1] that
    [updateFile(P, F1, S1)] leaves is not empty and [S2] is within [T1],
    then both updates return, the second splices into [T1], the project
    version has gone up by two, and the version token of [P] is the new
    project version. *)
Theorem updateFile_twice
    (files : loc) (opts : CompilerOptions) (P F1 F2 : string) (S1 S2 : TextSpan)
    (w : World) (sf : SourceFile) :
  let sys := system_of files in
  let T1 := splice (text sf) F1 S1 in
  program_getSourceFile (languageServiceHost sys opts w) P = Some sf ->
  in_bounds S1 (text sf) ->
  JsString.truthy T1 = true ->
  in_bounds S2 T1 ->
  exists w1 w2 : World,
    updateFile sys opts P F1 S1 w = (Normal tt, w1) /\
    readFile sys P (heap w1) = (Normal (Some T1), heap w1) /\
    updateFile sys opts P F2 S2 w1 = (Normal tt, w2) /\
    readFile sys P (heap w2) = (Normal (Some (splice T1 F2 S2)), heap w2) /\
    projectVersion w2 = (projectVersion w + 2)%N /\
    getScriptVersion P w2 = (Normal (pretty (projectVersion w + 2)%N), w2).
Proof.
  intros sys T1 Hsf HS1 HT1 HS2. subst sys.
  pose proof (updateFile_run files opts P F1 S1 w sf Hsf) as Hrun1. cbv zeta in Hrun1.
  unfold in_bounds in HS1, HS2.
  rewrite slice_prefix, slice_suffix in Hrun1 by lia. fold (splice (text sf) F1 S1) in Hrun1.
  fold T1 in Hrun1.
  match type of Hrun1 with _ = (_, ?x) => set (w1 := x) in * end.
  assert (Hstored1 : jsmap_get P (heap_read (heap w1) files) = Some T1).
  { subst w1. cbn. now rewrite heap_read_insert_eq, jsmap_get_set_eq. }
  destruct (program_getSourceFile_root (languageServiceHost (system_of files) opts w1) P T1)
    as [sf1 Hsf1].
  { subst w1. cbn. apply In_pushed. }
  { cbn. unfold answer. rewrite getScriptSnapshot_run. cbn [fst]. now rewrite Hstored1, HT1. }
  pose proof (program_text_is_stored _ _ _ _ _ Hsf1) as Htext1.
  rewrite Hstored1 in Htext1. injection Htext1 as Htext1.
  pose proof (updateFile_run files opts P F2 S2 w1 sf1 Hsf1) as Hrun2. cbv zeta in Hrun2.
  rewrite <- Htext1 in Hrun2.
  rewrite slice_prefix, slice_suffix in Hrun2 by lia. fold (splice T1 F2 S2) in Hrun2.
  exists w1. eexists. split; [exact Hrun1|].
  split; [now rewrite readFile_run, Hstored1|]. split; [exact Hrun2|].
  split; [rewrite readFile_run; cbn [heap];
          now rewrite heap_read_insert_eq, jsmap_get_set_eq|].
  split; [subst w1; cbn; lia|].
  rewrite getScriptVersion_run. cbn [fileVersions]. rewrite jsmap_get_set_eq.
  subst w1. cbn [projectVersion]. rewrite pretty_N_truthy.
  do 3 f_equal. lia.
Qed.

Lemma drop_all (s : string) : JsString.drop (String.length s) s = "".
Proof. induction s as [|c s IH]; [reflexivity | exact IH]. Qed.

(** X15. A file that is left empty can no longer be patched. After
    [createFile(P, "")], and after an [updateFile] that replaces the
    whole text of [P] by nothing, the store holds the empty text for
    [P], [fileExists(P)] is [true], and every [updateFile] on [P] throws
    the [TypeError] and leaves the state as it is. *)
Theorem updateFile_on_emptied_file_throws
    (files : loc) (opts : CompilerOptions) (P F : string) (S : TextSpan) :
  let sys := system_of files in
  let emptied w1 :=
    readFile sys P (heap w1) = (Normal (Some ""), heap w1) /\
    fileExists sys P (heap w1) = (Normal true, heap w1) /\
    updateFile sys opts P F S w1
      = (Throw (TypeError "Cannot read property 'text' of undefined"), w1) in
  (forall w : World,
     exists w1, createFile sys opts P "" w = (Normal tt, w1) /\ emptied w1) /\
  (forall (w : World) (sf : SourceFile),
     program_getSourceFile (languageServiceHost sys opts w) P = Some sf ->
     exists w1,
       updateFile sys opts P ""
         {| start := 0; span_length := Z.of_nat (String.length (text sf)) |} w
         = (Normal tt, w1) /\
       emptied w1).
Proof.
  intros sys emptied. subst sys.
  assert (Hemptied : forall w1,
             jsmap_get P (heap_read (heap w1) files) = Some "" -> emptied w1).
  { intros w1 Hstored. unfold emptied. cbn. unfold jsmap_has. rewrite Hstored.
    repeat split.
    destruct (updateFile_cases (system_of files) opts P F S w1)
      as [[_ Hthrow]|(sf1 & t & Hsf1 & _ & _)]; [exact Hthrow|].
    exfalso. pose proof (program_text_truthy _ _ _ _ _ Hsf1) as Ht.
    apply program_text_is_stored in Hsf1. rewrite Hstored in Hsf1.
    injection Hsf1 as Heq. rewrite <- Heq in Ht. discriminate. }
  split.
  - intros w. eexists. split; [apply createFile_run|].
    apply Hemptied. cbn. now rewrite heap_read_insert_eq, jsmap_get_set_eq.
  - intros w sf Hsf. eexists. split; [apply (updateFile_run _ _ _ _ _ _ _ Hsf)|].
    apply Hemptied. cbn [heap]. rewrite heap_read_insert_eq, jsmap_get_set_eq.
    cbn [start span_length]. rewrite slice_prefix, slice_suffix by lia.
    rewrite Z.add_0_l, Nat2Z.id, drop_all. reflexivity.
Qed.

End CallFacts.

Section EmptyFileFacts.
Context {ts : TS} {laws : TSLaws ts}.

Lemma string_app_nil_r (s : string) : s +:+ "" = s.
Proof.
  induction s as [|a s IH]; [reflexivity|].
  change (String a (s +:+ "") = String a s). now f_equal.
Qed.

(** C1, at the input the code gets wrong. On an environment over a
    system of [createSystem], create [P] with the empty text, so that
    the stored content [T] of [P] is [""], and take the span
    [{start: 0, length: 0}], which is within [T], and a fragment [F] that
    is not empty. Then [updateFile(P, F, S)] throws the [TypeError] and
    the stored content of [P] stays [""], while
    [createFile(P, T[0:0] + F + T[0:])], which is [createFile(P, F)],
    leaves [F] stored: the two final contents differ. *)
Theorem updateFile_on_file_created_empty_differs_from_createFile
    (m : loc) (h0 h1 : Heap) (sys : System) (opts : CompilerOptions)
    (P F : string) (w : World) :
  createSystem m h0 = (Normal sys, h1) ->
  F <> "" ->
  let S := {| start := 0; span_length := 0 |} in
  exists w1 w2 : World,
    createFile sys opts P "" w = (Normal tt, w1) /\
    readFile sys P (heap w1) = (Normal (Some ""), heap w1) /\
    in_bounds S "" /\
    splice "" F S = F /\
    updateFile sys opts P F S w1
      = (Throw (TypeError "Cannot read property 'text' of undefined"), w1) /\
    createFile sys opts P (splice "" F S) w1 = (Normal tt, w2) /\
    readFile sys P (heap w2) = (Normal (Some F), heap w2) /\
    fst (readFile sys P (heap w1)) <> fst (readFile sys P (heap w2)).
Proof.
  intros Hsys HF S.
  destruct (createSystem_inv _ _ _ _ Hsys) as (files & -> & _ & _).
  assert (Hsplice : splice "" F S = F) by (unfold splice; cbn; apply string_app_nil_r).
  assert (Hcreate : forall C w0,
            createFile (system_of files) opts P C w0
              = (Normal tt, snd (createFile (system_of files) opts P C w0)) /\
            jsmap_get P (heap_read
                           (heap (snd (createFile (system_of files) opts P C w0))) files)
              = Some C).
  { intros C w0. rewrite createFile_run. cbn [snd heap].
    now rewrite heap_read_insert_eq, jsmap_get_set_eq. }
  destruct (Hcreate "" w) as [Hc1 Hg1].
  set (w1 := snd (createFile (system_of files) opts P "" w)) in *.
  destruct (Hcreate F w1) as [Hc2 Hg2].
  set (w2 := snd (createFile (system_of files) opts P F w1)) in *.
  exists w1, w2. rewrite Hsplice, !readFile_run, Hg1, Hg2.
  split; [exact Hc1|]. split; [reflexivity|].
  split; [unfold in_bounds; cbn; lia|]. split; [reflexivity|]. split.
  - destruct (updateFile_cases (system_of files) opts P F S w1)
      as [[_ Hthrow]|(sf1 & t & Hsf1 & _ & _)]; [exact Hthrow|].
    exfalso. pose proof (program_text_truthy _ _ _ _ _ Hsf1) as Ht.
    apply program_text_is_stored in Hsf1. rewrite Hg1 in Hsf1.
    injection Hsf1 as Heq. rewrite <- Heq in Ht. discriminate.
  - split; [exact Hc2|]. split; [reflexivity|].
    cbn [fst]. intros [= Heq]. now apply HF.
Qed.

End EmptyFileFacts.

(** ** The library files of a target *)

Lemma knownLibFiles_cut (targetToCut : string) :
  let matches := List.filter (matches_target targetToCut) files in
  let cut := array_slice files 0 (indexOf (list.last matches) files + 1) in
  (Forall (fun f => matches_target targetToCut f = false) files /\ cut = []) \/
  (exists pre x post,
     files = pre ++ x :: post /\ matches_target targetToCut x = true /\
     cut = firstn (length pre + 1) files).
Proof.
  cbv zeta. destruct (List.filter (matches_target targetToCut) files) as [|y ys] eqn:Hm.
  - left. split; [|reflexivity].
    apply Forall_forall. intros f Hf%list_elem_of_In.
    destruct (matches_target targetToCut f) eqn:Hmf; [|reflexivity].
    assert (Hin : In f (List.filter (matches_target targetToCut) files))
      by (apply filter_In; now split).
    rewrite Hm in Hin. destruct Hin.
  - right. destruct (filter_last_split (matches_target targetToCut) files)
      as (pre & x & post & Hsplit & Hx & _ & Hlast); [congruence|].
    exists pre, x, post. split; [exact Hsplit|]. split; [exact Hx|].
    rewrite <- Hm, Hlast. unfold indexOf.
    pose proof files_NoDup as Hnd. rewrite Hsplit in Hnd |- *.
    rewrite indexOf_from_split.
    + rewrite Z.add_0_l, array_slice_split.
      replace (pre ++ x :: post) with ((pre ++ [x]) ++ post) by now rewrite <- app_assoc.
      symmetry. apply take_app_length'. rewrite length_app. simpl. lia.
    + apply NoDup_app in Hnd as (_ & Hdis & _).
      intros Hpre. apply (Hdis x); [now apply list_elem_of_In | left].
Qed.

Lemma knownLibFilesForTarget_firstn {ts : TS} (target : Z) (libs : list string) :
  knownLibFilesForTarget target = Normal libs -> exists k, libs = firstn k files.
Proof.
  unfold knownLibFilesForTarget.
  destruct (ScriptTarget_name target) as [name|]; [|discriminate].
  destruct (knownLibFiles_cut name) as [[_ ->]|(pre & x & post & _ & _ & ->)];
    intros H; injection H as <-.
  - now exists 0.
  - now exists (length pre + 1).
Qed.

Lemma firstn_files_NoDup (k : nat) : NoDup (firstn k files).
Proof.
  pose proof files_NoDup as Hnd. rewrite <- (take_drop k files) in Hnd.
  now apply NoDup_app in Hnd as (Hnd & _ & _).
Qed.

(** X16. [knownLibFilesForTarget] on every target: for a number that
    [ts.ScriptTarget] does not name it throws a [TypeError]; otherwise
    it returns a beginning of the catalog, in the order of the catalog,
    and that beginning is empty exactly when no name of the catalog
    starts with ["lib." + the lower-case name of the target]. *)
Theorem knownLibFilesForTarget_beginning_of_catalog {ts : TS} (target : Z) :
  match ScriptTarget_name target with
  | None =>
      knownLibFilesForTarget target
      = Throw (TypeError "Cannot read property 'toLowerCase' of undefined")
  | Some targetToCut =>
      exists k : nat,
        knownLibFilesForTarget target = Normal (firstn k files) /\
        (k = 0 <->
         Forall (fun f => JsString.startsWith f ("lib." +:+ JsString.toLowerCase targetToCut)
                          = false) files)
  end.
Proof.
  unfold knownLibFilesForTarget.
  destruct (ScriptTarget_name target) as [name|]; [|reflexivity].
  destruct (knownLibFiles_cut name) as [[Hnone ->]|(pre & x & post & Hsplit & Hx & ->)].
  - exists 0. split; [reflexivity|]. split; [intros _; exact Hnone | reflexivity].
  - exists (length pre + 1). split; [reflexivity|]. split; [lia|].
    intros Hall. exfalso. rewrite Forall_forall in Hall.
    assert (Hin : In x files) by (rewrite Hsplit; apply in_or_app; right; now left).
    apply list_elem_of_In, Hall in Hin. unfold matches_target in Hx. congruence.
Qed.

(** ** [createDefaultMapFromNodeModules] *)

Section NodeModulesFacts.
Context {ts : TS}.
Variable getLib : string -> Completion string.

Lemma lib_entries_keys (contents : string -> string) (libs : list string) :
  jsmap_keys (lib_entries contents libs) = map (fun lib => "/" +:+ lib) libs.
Proof. unfold jsmap_keys, lib_entries. rewrite map_map. reflexivity. Qed.

Lemma lib_entries_wf (contents : string -> string) (libs : list string) :
  NoDup libs -> jsmap_wf (lib_entries contents libs).
Proof.
  intros Hnd. unfold jsmap_wf. rewrite lib_entries_keys.
  change (NoDup ((fun lib => "/" +:+ lib) <$> libs)).
  apply NoDup_fmap_2; [|exact Hnd]. intros a b Hab. injection Hab as Hab. exact Hab.
Qed.

Lemma lib_entries_get (contents : string -> string) (libs : list string) (lib : string) :
  In lib libs -> jsmap_get ("/" +:+ lib) (lib_entries contents libs) = Some (contents lib).
Proof.
  induction libs as [|l libs IH]; intros Hin; [destruct Hin|]. cbn [lib_entries map jsmap_get].
  destruct (String.eqb_spec ("/" +:+ lib) ("/" +:+ l)) as [Heq|Hne].
  - injection Heq as Heq. change (lib = l) in Heq. subst l. reflexivity.
  - destruct Hin as [->|Hin]; [congruence | now apply IH].
Qed.

Lemma heap_read_Some (h : Heap) (l : loc) (m : JsMap string) :
  h !! l = Some m -> heap_read h l = m.
Proof. intros H. exact (f_equal (default []) H). Qed.

Lemma set_libs_run (contents : string -> string) (fsMap : loc) (libs : list string) (h : Heap) :
  is_Some (h !! fsMap) ->
  (forall lib, In lib libs -> getLib lib = Normal (contents lib)) ->
  exists h',
    set_libs getLib fsMap libs h = (Normal tt, h') /\
    (forall l, l <> fsMap -> h' !! l = h !! l) /\
    h' !! fsMap = Some (jsmap_assign (heap_read h fsMap) (lib_entries contents libs)).
Proof.
  revert h. induction libs as [|lib libs IH]; intros h [m Hm] Hall; cbn [set_libs].
  - exists h. split; [reflexivity|]. split; [reflexivity|].
    rewrite (heap_read_Some _ _ _ Hm). exact Hm.
  - rewrite (Hall lib) by now left.
    destruct (IH (<[fsMap := jsmap_set ("/" +:+ lib) (contents lib) (heap_read h fsMap)]> h))
      as (h' & -> & Hother & Hmap).
    { rewrite lookup_insert_eq. eauto. }
    { intros l Hl. apply Hall. now right. }
    exists h'. split; [reflexivity|]. split.
    + intros l Hl. rewrite Hother by exact Hl. now rewrite lookup_insert_ne.
    + rewrite Hmap, heap_read_insert_eq. reflexivity.
Qed.

Lemma createDefaultMapFromNodeModules_run
    (contents : string -> string) (target : Z) (libs : list string) (h : Heap) :
  knownLibFilesForTarget target = Normal libs ->
  (forall lib, In lib libs -> getLib lib = Normal (contents lib)) ->
  exists (fsMap : loc) (h' : Heap),
    createDefaultMapFromNodeModules getLib target h = (Normal fsMap, h') /\
    h !! fsMap = None /\
    (forall l, l <> fsMap -> h' !! l = h !! l) /\
    h' !! fsMap = Some (lib_entries contents libs) /\
    jsmap_wf (lib_entries contents libs).
Proof.
  intros Hlibs Hall. unfold createDefaultMapFromNodeModules, heap_alloc. rewrite Hlibs.
  set (fsMap := fresh (dom h)). cbv beta iota.
  assert (Hfresh : h !! fsMap = None) by apply not_elem_of_dom, is_fresh.
  match goal with
  | |- context [set_libs getLib fsMap libs ?h1] =>
      destruct (set_libs_run contents fsMap libs h1) as (h' & -> & Hother & Hmap);
        [rewrite lookup_insert_eq; eauto | exact Hall |]
  end.
  assert (Hwf : jsmap_wf (lib_entries contents libs)).
  { destruct (knownLibFilesForTarget_firstn _ _ Hlibs) as [k ->].
    apply lib_entries_wf, firstn_files_NoDup. }
  exists fsMap, h'. split; [reflexivity|]. split; [exact Hfresh|]. split; [|split].
  - intros l Hl. rewrite Hother by exact Hl. now rewrite lookup_insert_ne.
  - rewrite Hmap, heap_read_insert_eq. f_equal. now apply jsmap_assign_wf.
  - exact Hwf.
Qed.

(** X17. When the file of every library name for the target can be
    read, [createDefaultMapFromNodeModules] returns a new map, leaves
    every map that existed as it was, and the new map holds, in the
    order of the catalog, one entry for each library name: ["/" + name]
    with the text of its file; no key occurs twice. *)
Theorem createDefaultMapFromNodeModules_entries
    (contents : string -> string) (target : Z) (libs : list string) (h : Heap) :
  knownLibFilesForTarget target = Normal libs ->
  (forall lib, In lib libs -> getLib lib = Normal (contents lib)) ->
  exists (fsMap : loc) (h' : Heap),
    createDefaultMapFromNodeModules getLib target h = (Normal fsMap, h') /\
    h !! fsMap = None /\
    (forall l, l <> fsMap -> h' !! l = h !! l) /\
    h' !! fsMap = Some (map (fun lib => ("/" +:+ lib, contents lib)) libs) /\
    NoDup (map (fun lib => "/" +:+ lib) libs).
Proof.
  intros Hlibs Hall.
  destruct (createDefaultMapFromNodeModules_run contents target libs h Hlibs Hall)
    as (fsMap & h' & Hrun & Hfresh & Hother & Hmap & Hwf).
  exists fsMap, h'. unfold jsmap_wf in Hwf. rewrite lib_entries_keys in Hwf.
  repeat split; assumption.
Qed.

Lemma set_libs_throws (contents : string -> string) (fsMap : loc)
    (pre post : list string) (lib : string) (e : JsError) (h : Heap) :
  (forall l, In l pre -> getLib l = Normal (contents l)) ->
  getLib lib = Throw e ->
  exists h', set_libs getLib fsMap (pre ++ lib :: post) h = (Throw e, h') /\
             forall l, l <> fsMap -> h' !! l = h !! l.
Proof.
  revert h. induction pre as [|p pre IH]; intros h Hpre Hlib; cbn [set_libs app].
  - rewrite Hlib. eauto.
  - rewrite (Hpre p) by now left.
    destruct (IH (<[fsMap := jsmap_set ("/" +:+ p) (contents p) (heap_read h fsMap)]> h))
      as (h' & -> & Hother); [intros l Hl; apply Hpre; now right | exact Hlib |].
    exists h'. split; [reflexivity|].
    intros l Hl. rewrite Hother by exact Hl. now rewrite lookup_insert_ne.
Qed.

(** X18. When the files of the library names are read in the order of
    the catalog and one cannot be read, [createDefaultMapFromNodeModules]
    throws the error of the first one that cannot be read, and every map
    that existed is as it was. *)
Theorem createDefaultMapFromNodeModules_first_unreadable
    (contents : string -> string) (target : Z) (pre post : list string)
    (lib : string) (e : JsError) (h : Heap) :
  knownLibFilesForTarget target = Normal (pre ++ lib :: post) ->
  (forall l, In l pre -> getLib l = Normal (contents l)) ->
  getLib lib = Throw e ->
  exists h' : Heap,
    createDefaultMapFromNodeModules getLib target h = (Throw e, h') /\
    forall l, is_Some (h !! l) -> h' !! l = h !! l.
Proof.
  intros Hlibs Hpre Hlib. unfold createDefaultMapFromNodeModules, heap_alloc. rewrite Hlibs.
  set (fsMap := fresh (dom h)). cbv beta iota.
  assert (Hfresh : h !! fsMap = None) by apply not_elem_of_dom, is_fresh.
  match goal with
  | |- context [set_libs getLib fsMap _ ?h1] =>
      destruct (set_libs_throws contents fsMap pre post lib e h1 Hpre Hlib)
        as (h' & -> & Hother)
  end.
  exists h'. split; [reflexivity|].
  intros l [v Hl]. assert (Hne : l <> fsMap) by congruence.
  rewrite Hother by exact Hne. now rewrite lookup_insert_ne.
Qed.

(** X19. The map of [createDefaultMapFromNodeModules] given to
    [createSystem]: the system lists ["/" + name] for the library names
    of the target, in the order of the catalog, and [readFile] of each
    returns the text of its file. *)
Theorem createSystem_of_default_map
    (contents : string -> string) (target : Z) (libs : list string)
    (h h1 h2 : Heap) (fsMap : loc) (sys : System) :
  knownLibFilesForTarget target = Normal libs ->
  (forall lib, In lib libs -> getLib lib = Normal (contents lib)) ->
  createDefaultMapFromNodeModules getLib target h = (Normal fsMap, h1) ->
  createSystem fsMap h1 = (Normal sys, h2) ->
  readDirectory sys "/" h2 = (Normal (map (fun lib => "/" +:+ lib) libs), h2) /\
  (forall lib, In lib libs ->
     fileExists sys ("/" +:+ lib) h2 = (Normal true, h2) /\
     readFile sys ("/" +:+ lib) h2 = (Normal (Some (contents lib)), h2)).
Proof.
  intros Hlibs Hall Hmap Hsys.
  destruct (createDefaultMapFromNodeModules_run contents target libs h Hlibs Hall)
    as (fsMap' & h1' & Hrun & _ & _ & Hentries & Hwf).
  rewrite Hrun in Hmap. injection Hmap as -> ->.
  destruct (createSystem_inv _ _ _ _ Hsys) as (files & -> & _ & ->).
  assert (Hstore : heap_read (<[files := jsmap_new (heap_read h1 fsMap)]> h1) files
                   = lib_entries contents libs).
  { rewrite heap_read_insert_eq, (heap_read_Some _ _ _ Hentries).
    now apply jsmap_new_wf. }
  split.
  - cbn. rewrite Hstore, lib_entries_keys. reflexivity.
  - intros lib Hin. cbn. unfold jsmap_has.
    rewrite Hstore, lib_entries_get by exact Hin. split; reflexivity.
Qed.

End NodeModulesFacts.

(** ** The reference module, and the properties at work on it *)

Lemma tsRef_laws : TSLaws tsRef.
Proof.
  split; cbn; try reflexivity.
  - intros host f sf. unfold ref_program_getSourceFile.
    destruct (includes _ f); [|discriminate].
    destruct (answer_getScriptSnapshot host f); [|discriminate].
    now intros [= <-].
  - intros host f sf. unfold ref_program_getSourceFile.
    destruct (includes _ f); [|discriminate].
    destruct (answer_getScriptSnapshot host f); [|discriminate].
    now intros [= <-].
  - intros host f t Hin Ht. unfold ref_program_getSourceFile.
    apply includes_In in Hin. rewrite Hin, Ht. eexists. reflexivity.
Qed.

#[local] Existing Instance tsRef.

Lemma boot_a (rootFiles : list string) :
  boot (ts := tsRef) 1 rootFiles (world_of heap_a) = (Normal env_a, world_a rootFiles).
Proof. reflexivity. Qed.

Lemma directoryExists_prefix_readDirectory_root_witness :
  createSystem 1 heap_a = (Normal sys_a, heap_a') /\
  exists files : loc,
    heap_read heap_a' files = jsmap_new (heap_read heap_a 1) /\
    (forall (h : Heap) (f c : string),
       exists h' : Heap,
         writeFile sys_a f c h = (Normal tt, h') /\
         heap_read h' files = jsmap_set f c (heap_read h files)) /\
    (forall (ws : list (string * string)) (p : string),
       In p (jsmap_keys (heap_read
               (fold_left (fun h fc => snd (writeFile sys_a (fst fc) (snd fc) h)) ws heap_a')
               files))
       <-> In p (jsmap_keys (heap_read heap_a 1)) \/ In p (map fst ws)) /\
    forall (h : Heap) (D : string),
      let stored := jsmap_keys (heap_read h files) in
      (forall p : string, fileExists sys_a p h = (Normal true, h) <-> In p stored) /\
      (exists b : bool, directoryExists sys_a D h = (Normal b, h)) /\
      (directoryExists sys_a D h = (Normal true, h) <->
         exists p rest : string, In p stored /\ p = D +:+ rest) /\
      readDirectory sys_a "/" h = (Normal stored, h) /\
      (D <> "/" -> readDirectory sys_a D h = (Normal [], h)).
Proof.
  split; [reflexivity|].
  apply (directoryExists_prefix_readDirectory_root 1 heap_a heap_a' sys_a eq_refl).
Defined.

Lemma unsupported_operations_throw_witness :
  createSystem 1 heap_a = (Normal sys_a, heap_a') /\
  createDirectory sys_a "/dir" heap_a'
    = (Throw (Error "Method 'createDirectory' is not implemented."), heap_a') /\
  exit sys_a (Some 1%Z) heap_a'
    = (Throw (Error "Method 'exit' is not implemented."), heap_a') /\
  write sys_a "text" heap_a'
    = (Throw (Error "Method 'write' is not implemented."), heap_a') /\
  getExecutingFilePath sys_a heap_a'
    = (Throw (Error "Method 'getExecutingFilePath' is not implemented."), heap_a').
Proof.
  split; [reflexivity|].
  apply (unsupported_operations_throw 1 heap_a heap_a' sys_a eq_refl
           heap_a' "/dir" "text" (Some 1%Z)).
Defined.

Lemma createSystem_private_copy_witness :
  is_Some (heap_a !! 1%positive) /\
  createSystem 1 heap_a = (Normal sys_a, heap_a') /\
  heap_a' !! 1%positive = heap_a !! 1%positive /\
  (forall (h : Heap) (f c : string),
     snd (writeFile sys_a f c h) !! 1%positive = h !! 1%positive) /\
  (forall es : list Event,
     same_answers sys_a (run_events sys_a 1 es heap_a')
                        (run_events sys_a 1 (List.filter is_CallWriteFile es) heap_a')) /\
  (jsmap_wf (heap_read heap_a 1) ->
   forall f : string,
     readFile sys_a f heap_a' = (Normal (jsmap_get f (heap_read heap_a 1)), heap_a')).
Proof.
  split; [eexists; reflexivity|]. split; [reflexivity|].
  apply (createSystem_private_copy 1 heap_a heap_a' sys_a);
    [eexists; reflexivity | reflexivity].
Defined.

Lemma createFile_empty_getScriptSnapshot_undefined_witness :
  createSystem 1 heap_a = (Normal sys_a, heap_a') /\
  exists w' : World,
    createFile (ts := tsRef) sys_a opts_a "/a.ts" "" (world_a []) = (Normal tt, w') /\
    readFile sys_a "/a.ts" (heap w') = (Normal (Some ""), heap w') /\
    getScriptSnapshot sys_a "/a.ts" w' = (Normal None, w').
Proof.
  split; [reflexivity|].
  apply (createFile_empty_getScriptSnapshot_undefined (ts := tsRef) (laws := tsRef_laws)
           1 heap_a heap_a' sys_a opts_a "/a.ts" (world_a []) eq_refl).
Defined.

Lemma updateFile_same_store_as_createFile_of_splice_witness :
  let T := "let x = 1;" in
  let S := {| start := 8; span_length := 1 |} in
  createSystem 1 heap_a = (Normal sys_a, heap_a') /\
  readFile sys_a "/a.ts" (heap (world_a ["/a.ts"]))
    = (Normal (Some T), heap (world_a ["/a.ts"])) /\
  is_Some (program_getSourceFile (languageServiceHost sys_a opts_a (world_a ["/a.ts"]))
                                 "/a.ts") /\
  (0 <= start S /\ start S <= start S + span_length S /\
   start S + span_length S <= Z.of_nat (String.length T))%Z /\
  exists w1 w2 : World,
    updateFile sys_a opts_a "/a.ts" "2" S (world_a ["/a.ts"]) = (Normal tt, w1) /\
    createFile sys_a opts_a "/a.ts" "let x = 2;" (world_a ["/a.ts"]) = (Normal tt, w2) /\
    heap w1 = heap w2 /\
    readFile sys_a "/a.ts" (heap w1) = (Normal (Some "let x = 2;"), heap w1).
Proof.
  cbv zeta. split; [reflexivity|]. split; [reflexivity|].
  split; [eexists; reflexivity|]. split; [cbn; lia|].
  apply (updateFile_same_store_as_createFile_of_splice (ts := tsRef) (laws := tsRef_laws)
           1 heap_a heap_a' sys_a opts_a "/a.ts" "let x = 1;" "2"
           {| start := 8; span_length := 1 |} (world_a ["/a.ts"]));
    [reflexivity | reflexivity | eexists; reflexivity | cbn; lia].
Defined.



Lemma projectVersion_increases_by_one_witness :
  let cs := [ CreateFile "/b.ts" "let y = 1;";
              UpdateFile "/c.ts" "x" {| start := 0; span_length := 0 |};
              UpdateFile "/b.ts" "2" {| start := 8; span_length := 1 |} ] in
  createSystem 1 heap_a = (Normal sys_a, heap_a') /\
  projectVersion (calls env_a cs (world_a []))
    = (projectVersion (world_a []) + N.of_nat (returned_calls env_a cs (world_a [])))%N /\
  (projectVersion (world_a []) <= projectVersion (calls env_a cs (world_a [])))%N /\
  observed_versions env_a cs (world_a [])
    = map (fun i => pretty (projectVersion (world_a []) + N.of_nat i)%N)
          (seq 1 (returned_calls env_a cs (world_a []))) /\
  NoDup (observed_versions env_a cs (world_a [])) /\
  (Forall (fun c => is_CreateFile c = true) cs ->
   returned_calls env_a cs (world_a []) = length cs).
Proof.
  intros cs. split; [reflexivity|].
  apply (proj2 (proj2 (proj2 (proj2
           (projectVersion_increases_by_one (ts := tsRef) 1 heap_a heap_a' sys_a opts_a
              eq_refl)))) cs (world_a [])).
Defined.

Lemma getScriptVersion_baseline_for_untouched_path_witness :
  let cs := [ CreateFile "/b.ts" "let y = 1;";
              UpdateFile "/b.ts" "2" {| start := 8; span_length := 1 |} ] in
  createVirtualTypeScriptEnvironment sys_a ["/a.ts"] [] (world_of heap_a')
    = (Normal env_a, world_a ["/a.ts"]) /\
  Forall (fun c => call_fileName c <> "/a.ts") cs /\
  getScriptVersion "/a.ts" (world_a ["/a.ts"]) = (Normal "0", world_a ["/a.ts"]) /\
  getScriptVersion "/a.ts" (calls env_a cs (world_a ["/a.ts"]))
    = (Normal "0", calls env_a cs (world_a ["/a.ts"])).
Proof.
  intros cs.
  assert (Hcs : Forall (fun c => call_fileName c <> "/a.ts") cs)
    by (apply (bool_decide_unpack _); vm_compute; reflexivity).
  split; [reflexivity|]. split; [exact Hcs|].
  apply (getScriptVersion_baseline_for_untouched_path (ts := tsRef) (laws := tsRef_laws)
           sys_a ["/a.ts"] [] (world_of heap_a') (world_a ["/a.ts"]) env_a "/a.ts" cs
           eq_refl Hcs).
Defined.

(** C6, as stated, fails. A language service host made from the root
    files ["/a.ts"], ["/a.ts"] returns that list, with its duplicate,
    from [getScriptFileNames]. *)
Lemma fileNames_duplicate_root_files :
  let w := snd (createVirtualLanguageServiceHost (ts := tsRef) sys_a ["/a.ts"; "/a.ts"]
                  opts_a (world_of heap_a')) in
  getScriptFileNames w = (Normal ["/a.ts"; "/a.ts"], w) /\
  ~ NoDup (fileNames w).
Proof.
  cbv zeta. split; [reflexivity|].
  cbn. intros H. apply NoDup_cons in H as [H _]. apply H. left.
Qed.

Lemma fileNames_NoDup_and_growing_witness :
  let sfs := [ {| ref_fileName := "/b.ts"; ref_text := "let y = 1;" |};
               {| ref_fileName := "/a.ts"; ref_text := "let x = 2;" |} ] in
  let w := host_updates (ts := tsRef) sys_a sfs
             (snd (createVirtualLanguageServiceHost sys_a ["/a.ts"] opts_a
                     (world_of heap_a'))) in
  NoDup ["/a.ts"] /\
  getScriptFileNames w = (Normal (fileNames w), w) /\
  NoDup (fileNames w) /\
  (forall p, In p ["/a.ts"] -> In p (fileNames w)) /\
  (forall sf, In sf sfs -> In (fileName sf) (fileNames w)) /\
  (forall (w1 : World) (sf : SourceFile),
     let w2 := snd (lsHost_updateFile sys_a sf w1) in
     (forall p, In p (fileNames w1) -> In p (fileNames w2)) /\
     In (fileName sf) (fileNames w2)).
Proof.
  intros sfs w.
  assert (Hroots : NoDup ["/a.ts"])
    by (apply (bool_decide_unpack _); vm_compute; reflexivity).
  split; [exact Hroots|].
  apply (fileNames_NoDup_and_growing (ts := tsRef) sys_a ["/a.ts"] opts_a
           (world_of heap_a') sfs Hroots).
Defined.

(** ** The further properties at work on the reference module *)

Lemma createSystem_twice_independent_witness :
  createSystem 1 heap_a = (Normal sys_a, heap_a') /\
  createSystem 1 heap_a' = (Normal sys_b, heap_b) /\
  forall (h : Heap) (f c : string),
    same_answers sys_b (snd (writeFile sys_a f c h)) h /\
    same_answers sys_a (snd (writeFile sys_b f c h)) h.
Proof.
  split; [reflexivity|]. split; [reflexivity|].
  apply (createSystem_twice_independent 1 heap_a heap_a' heap_b sys_a sys_b
           eq_refl eq_refl).
Defined.

Lemma getSourceFile_parses_stored_text_once_witness :
  jsmap_get "/a.ts" (sourceFiles (world_a [])) = None /\
  readFile sys_a "/a.ts" (heap (world_a [])) = (Normal (Some "let x = 1;"), heap (world_a [])) /\
  exists w1 : World,
    getSourceFile createSourceFile_undefined_a sys_a [] "/a.ts" (world_a [])
      = (Normal sf_a, w1) /\
    text sf_a = "let x = 1;" /\
    heap w1 = heap (world_a []) /\
    getSourceFile createSourceFile_undefined_a sys_a [] "/a.ts" w1 = (Normal sf_a, w1).
Proof.
  split; [reflexivity|]. split; [reflexivity|].
  apply (getSourceFile_parses_stored_text_once (ts := tsRef) createSourceFile_undefined_a
           (laws := tsRef_laws) 2 [] "/a.ts" "let x = 1;" (world_a []));
    reflexivity.
Defined.

Lemma getSourceFile_ignores_writeFile_witness :
  let w := snd (vHost_updateFile sys_a sf_a (world_a [])) in
  let w' := snd (liftIO (writeFile sys_a "/a.ts" "let x = 3;") w) in
  jsmap_get "/a.ts" (sourceFiles w) = Some sf_a /\
  readFile sys_a "/a.ts" (heap w') = (Normal (Some "let x = 3;"), heap w') /\
  getSourceFile createSourceFile_undefined_a sys_a [] "/a.ts" w' = (Normal sf_a, w').
Proof.
  intros w w'. split; [reflexivity|].
  apply (getSourceFile_ignores_writeFile (ts := tsRef) createSourceFile_undefined_a
           2 [] "/a.ts" "let x = 3;" sf_a w).
  reflexivity.
Defined.

Lemma mergedCompilerOptions_precedence_witness :
  let compilerOptions := [("target", ONumber 5); ("strict", OBool false)] in
  let mergedCompilerOptions := jsmap_assign defaultCompilerOptions compilerOptions in
  jsmap_wf compilerOptions /\
  (forall k v, jsmap_get k compilerOptions = Some v ->
     jsmap_get k mergedCompilerOptions = Some v) /\
  (forall k, jsmap_get k compilerOptions = None ->
     jsmap_get k mergedCompilerOptions = jsmap_get k defaultCompilerOptions).
Proof.
  intros compilerOptions mergedCompilerOptions.
  assert (Hwf : jsmap_wf compilerOptions)
    by (apply (bool_decide_unpack _); vm_compute; reflexivity).
  split; [exact Hwf|].
  destruct (mergedCompilerOptions_precedence (ts := tsRef) compilerOptions Hwf)
    as (Hgiven & Hdefault & _).
  split; [exact Hgiven | exact Hdefault].
Defined.

Lemma call_leaves_other_paths_witness :
  let w := world_a ["/a.ts"] in
  let w' := snd (call env_a (CreateFile "/b.ts" "let y = 1;") w) in
  call_fileName (CreateFile "/b.ts" "let y = 1;") <> "/a.ts" /\
  readFile sys_a "/a.ts" (heap w') = (fst (readFile sys_a "/a.ts" (heap w)), heap w') /\
  fst (getScriptSnapshot sys_a "/a.ts" w') = fst (getScriptSnapshot sys_a "/a.ts" w) /\
  jsmap_get "/a.ts" (sourceFiles w') = jsmap_get "/a.ts" (sourceFiles w) /\
  fst (getScriptVersion "/a.ts" w') = fst (getScriptVersion "/a.ts" w).
Proof.
  intros w w'.
  assert (Hne : call_fileName (CreateFile "/b.ts" "let y = 1;") <> "/a.ts") by discriminate.
  split; [exact Hne|].
  apply (call_leaves_other_paths (ts := tsRef) (laws := tsRef_laws)
           2 opts_a (CreateFile "/b.ts" "let y = 1;") "/a.ts" w Hne).
Defined.

Lemma updateFile_twice_witness :
  let S1 := {| start := 8; span_length := 1 |} in
  let S2 := {| start := 4; span_length := 1 |} in
  let w := world_a ["/a.ts"] in
  program_getSourceFile (languageServiceHost sys_a opts_a w) "/a.ts" = Some sf_a /\
  in_bounds S1 "let x = 1;" /\
  JsString.truthy "let x = 2;" = true /\
  in_bounds S2 "let x = 2;" /\
  exists w1 w2 : World,
    updateFile sys_a opts_a "/a.ts" "2" S1 w = (Normal tt, w1) /\
    readFile sys_a "/a.ts" (heap w1) = (Normal (Some "let x = 2;"), heap w1) /\
    updateFile sys_a opts_a "/a.ts" "y" S2 w1 = (Normal tt, w2) /\
    readFile sys_a "/a.ts" (heap w2) = (Normal (Some "let y = 2;"), heap w2) /\
    projectVersion w2 = (projectVersion w + 2)%N /\
    getScriptVersion "/a.ts" w2 = (Normal (pretty (projectVersion w + 2)%N), w2).
Proof.
  intros S1 S2 w.
  assert (H1 : in_bounds S1 "let x = 1;") by (unfold in_bounds; cbn; lia).
  assert (H2 : in_bounds S2 "let x = 2;") by (unfold in_bounds; cbn; lia).
  split; [reflexivity|]. split; [exact H1|]. split; [reflexivity|]. split; [exact H2|].
  apply (updateFile_twice (ts := tsRef) (laws := tsRef_laws)
           2 opts_a "/a.ts" "2" "y" S1 S2 w sf_a eq_refl H1 eq_refl H2).
Defined.

Lemma updateFile_on_emptied_file_throws_witness :
  exists w1 : World,
    createFile sys_a opts_a "/a.ts" "" (world_a ["/a.ts"]) = (Normal tt, w1) /\
    readFile sys_a "/a.ts" (heap w1) = (Normal (Some ""), heap w1) /\
    fileExists sys_a "/a.ts" (heap w1) = (Normal true, heap w1) /\
    updateFile sys_a opts_a "/a.ts" "x" {| start := 0; span_length := 0 |} w1
      = (Throw (TypeError "Cannot read property 'text' of undefined"), w1).
Proof.
  apply (proj1 (updateFile_on_emptied_file_throws (ts := tsRef) (laws := tsRef_laws)
                  2 opts_a "/a.ts" "x" {| start := 0; span_length := 0 |})
               (world_a ["/a.ts"])).
Defined.

Lemma createDefaultMapFromNodeModules_entries_witness :
  knownLibFilesForTarget (ts := tsRef) 1 = Normal libs_es5 /\
  (forall lib, In lib libs_es5 -> getLib_a lib = Normal (contents_a lib)) /\
  exists (fsMap : loc) (h' : Heap),
    createDefaultMapFromNodeModules getLib_a 1 heap_a = (Normal fsMap, h') /\
    heap_a !! fsMap = None /\
    (forall l, l <> fsMap -> h' !! l = heap_a !! l) /\
    h' !! fsMap = Some (map (fun lib => ("/" +:+ lib, contents_a lib)) libs_es5) /\
    NoDup (map (fun lib => "/" +:+ lib) libs_es5).
Proof.
  split; [reflexivity|]. split; [reflexivity|].
  apply (createDefaultMapFromNodeModules_entries (ts := tsRef) getLib_a contents_a 1 libs_es5
           heap_a eq_refl (fun lib _ => eq_refl)).
Defined.

Lemma createDefaultMapFromNodeModules_first_unreadable_witness :
  knownLibFilesForTarget (ts := tsRef) 1
    = Normal (["lib.d.ts"] ++ "lib.dom.d.ts" :: ["lib.dom.iterable.d.ts"; "lib.es5.d.ts"]) /\
  (forall l, In l ["lib.d.ts"] -> getLib_b l = Normal (contents_a l)) /\
  getLib_b "lib.dom.d.ts" = Throw (Error "ENOENT") /\
  exists h' : Heap,
    createDefaultMapFromNodeModules getLib_b 1 heap_a = (Throw (Error "ENOENT"), h') /\
    forall l, is_Some (heap_a !! l) -> h' !! l = heap_a !! l.
Proof.
  assert (Hpre : forall l, In l ["lib.d.ts"] -> getLib_b l = Normal (contents_a l)).
  { intros l [<-|[]]. reflexivity. }
  split; [reflexivity|]. split; [exact Hpre|]. split; [reflexivity|].
  apply (createDefaultMapFromNodeModules_first_unreadable (ts := tsRef) getLib_b contents_a 1
           ["lib.d.ts"] ["lib.dom.iterable.d.ts"; "lib.es5.d.ts"] "lib.dom.d.ts"
           (Error "ENOENT") heap_a eq_refl Hpre eq_refl).
Defined.

Lemma createSystem_of_default_map_witness :
  let h2 := <[3%positive := lib_entries contents_a libs_es5]> heap_libs in
  knownLibFilesForTarget (ts := tsRef) 1 = Normal libs_es5 /\
  (forall lib, In lib libs_es5 -> getLib_a lib = Normal (contents_a lib)) /\
  createDefaultMapFromNodeModules getLib_a 1 heap_a = (Normal 2%positive, heap_libs) /\
  createSystem 2 heap_libs = (Normal sys_b, h2) /\
  readDirectory sys_b "/" h2 = (Normal (map (fun lib => "/" +:+ lib) libs_es5), h2) /\
  (forall lib, In lib libs_es5 ->
     fileExists sys_b ("/" +:+ lib) h2 = (Normal true, h2) /\
     readFile sys_b ("/" +:+ lib) h2 = (Normal (Some (contents_a lib)), h2)).
Proof.
  intros h2.
  assert (Hmap : createDefaultMapFromNodeModules (ts := tsRef) getLib_a 1 heap_a
                 = (Normal 2%positive, heap_libs)) by (vm_compute; reflexivity).
  assert (Hsys : createSystem 2 heap_libs = (Normal sys_b, h2)) by (vm_compute; reflexivity).
  split; [reflexivity|]. split; [reflexivity|]. split; [exact Hmap|]. split; [exact Hsys|].
  apply (createSystem_of_default_map (ts := tsRef) getLib_a contents_a 1 libs_es5
           heap_a heap_libs h2 2%positive sys_b eq_refl (fun lib _ => eq_refl) Hmap Hsys).
Defined.

Lemma updateFile_on_file_created_empty_differs_from_createFile_witness :
  let S := {| start := 0; span_length := 0 |} in
  createSystem 1 heap_a = (Normal sys_a, heap_a') /\
  "x" <> "" /\
  exists w1 w2 : World,
    createFile sys_a opts_a "/a.ts" "" (world_a []) = (Normal tt, w1) /\
    readFile sys_a "/a.ts" (heap w1) = (Normal (Some ""), heap w1) /\
    in_bounds S "" /\
    splice "" "x" S = "x" /\
    updateFile sys_a opts_a "/a.ts" "x" S w1
      = (Throw (TypeError "Cannot read property 'text' of undefined"), w1) /\
    createFile sys_a opts_a "/a.ts" (splice "" "x" S) w1 = (Normal tt, w2) /\
    readFile sys_a "/a.ts" (heap w2) = (Normal (Some "x"), heap w2) /\
    fst (readFile sys_a "/a.ts" (heap w1)) <> fst (readFile sys_a "/a.ts" (heap w2)).
Proof.
  intros S.
  assert (HF : "x" <> "") by discriminate.
  split; [reflexivity|]. split; [exact HF|].
  apply (updateFile_on_file_created_empty_differs_from_createFile
           (ts := tsRef) (laws := tsRef_laws)
           1 heap_a heap_a' sys_a opts_a "/a.ts" "x" (world_a []) eq_refl HF).
Defined.
